(** * dax_imgserv crawler: a shallow embedding of
      [python/lsst/dax/imgserv/crawler.py] and the properties of its scan
      cycle and scheduler.

    The crawler is a single-threaded Python 2 program that talks to a
    number of collaborators: the datacat REST client, the metadata
    database, the filesystem, a [cksum] child process, the logger and the
    wall clock.  Every call that leaves the module is modelled as an
    interaction with a [World]: the world answers each call as a function
    of the whole history of interactions so far, and the call together
    with its answer is appended to a trace.  Exceptions are values of
    [exn], threaded through an error monad. *)

From Stdlib Require Import ZArith String Ascii List Lia Bool.
From stdpp Require Import base gmap strings list.
Import ListNotations.

Open Scope string_scope.
Open Scope list_scope.
Open Scope Z_scope.

(** ** Python values that travel in patch bodies *)

#[warnings="-register-all"]
Inductive value :=
| VInt (n : Z)
| VStr (s : string)
| VDict (m : gmap string value).

(** ** Exceptions *)

(** [datacat.client.DcException]: its attributes are set from the JSON
    body of the failed response when there is one ([message], [type],
    [cause]) and [content] holds the raw body otherwise; [hasattr] is
    modelled by the option. *)
Record DcError := {
  dc_message : option string;
  dc_type : option string;
  dc_cause : option string;
  dc_content : option string
}.

Inductive exn :=
| DcException (error : DcError)
| OSError (msg : string)
| AttributeError (msg : string)
| TypeError (msg : string)
| ValueError (msg : string)
| SystemExit (code : Z)
| OtherError (name : string).

Inductive Result (A : Type) :=
| Ret (a : A)
| Raise (x : exn).
Arguments Ret {A} a.
Arguments Raise {A} x.

(** ** Catalog records *)

Record Location := { site : string; resource : string }.

Record Dataset := {
  path : string;
  versionId : Z;
  locations : list Location
}.

Record Response := { content : string }.

(** ** Handles of the collaborators *)

Record Engine := { url_username : option string }.
Record MetadataFitsDb := { md_credFileName : string }.
Record DataCatCfg := { cfg_handle : Z }.
Record Client := { client_url : string }.
Record stat_result := { st_size : Z }.

(** ** [datetime.datetime] *)

(** The field ranges Python's [datetime] type guarantees. *)
Definition datetime_fields_ok (y mo d h mi s : Z) : bool :=
  (1 <=? y) && (y <=? 9999) && (1 <=? mo) && (mo <=? 12) &&
  (1 <=? d) && (d <=? 31) && (0 <=? h) && (h <=? 23) &&
  (0 <=? mi) && (mi <=? 59) && (0 <=? s) && (s <=? 59).

Record datetime := {
  year : Z; month : Z; day : Z; hour : Z; minute : Z; second : Z;
  datetime_range : datetime_fields_ok year month day hour minute second = true
}.

(** ** Logging *)

Inductive Level := DEBUG | INFO | WARN.

Inductive LogArg :=
| AStr (s : string)
| AInt (n : Z)
| AExn (x : exn).

(** ** Interactions *)

(** The only callable the crawler ever hands to its scheduler is the
    bound method [self._run]. *)
Inductive Action := Action_run.

(** One constructor per call that leaves the module, with its arguments
    and its outcome. *)
Inductive Event :=
| ESetLevel (name : string) (lvl : Level)
| EDataCatCfg (r : Result DataCatCfg)
| EGetRestUrl (cfg : DataCatCfg) (r : Result string)
| EClient (url : string) (r : Result Client)
| EGetEngineFromFile (credFileName : string) (r : Result Engine)
| EMetadataFitsDb (credFileName : string) (r : Result MetadataFitsDb)
| ESearch (c : Client) (folder version site_ query : string) (max_num : Z)
          (r : Result Response)
| EStat (file_path : string) (r : Result stat_result)
| ESubprocess (argv : list string) (r : Result (Z * string))
| EUtcnow (now : datetime)
| EPatch (c : Client) (dataset_path : string) (body : gmap string value)
         (version : Z) (site_ : option string) (r : Result Response)
| EInsertFile (db : MetadataFitsDb) (file_path : string) (r : Result Z)
| ELog (lvl : Level) (fmt : string) (args : list LogArg) (r : Result unit)
| EEnter (delay priority : Z) (action : Action)
| ETime (t : Z)
| ESleep (d : Z).

Definition Trace := list Event.

(** The environment.  Every answer may depend on the history [h] of all
    earlier interactions, so a collaborator can fail the second patch of
    a dataset after accepting the first, and so on.  [w_time] is
    [time.time], read in whole clock units. *)
Record World := {
  w_DataCatCfg : Trace -> Result DataCatCfg;
  w_getRestUrl : Trace -> DataCatCfg -> Result string;
  w_Client : Trace -> string -> Result Client;
  w_getEngineFromFile : Trace -> string -> Result Engine;
  w_MetadataFitsDb : Trace -> string -> Result MetadataFitsDb;
  w_search : Trace -> Client -> string -> string -> string -> string -> Z ->
             Result Response;
  w_unpack : string -> Result (list Dataset);
  w_stat : Trace -> string -> Result stat_result;
  w_subprocess : Trace -> list string -> Result (Z * string);
  w_utcnow : Trace -> datetime;
  w_patch_dataset : Trace -> Client -> string -> gmap string value -> Z ->
                    option string -> Result Response;
  w_insertFile : Trace -> MetadataFitsDb -> string -> Result Z;
  w_log : Trace -> Level -> string -> list LogArg -> Result unit;
  w_time : Trace -> Z
}.

(** ** The monad of the module: history in, outcome and emitted events out *)

Definition M (A : Type) := Trace -> Result A * Trace.

Definition ret {A} (a : A) : M A := fun _ => (Ret a, []).

Definition raise {A} (x : exn) : M A := fun _ => (Raise x, []).

Definition bind {A B} (m : M A) (f : A -> M B) : M B :=
  fun h =>
    match m h with
    | (Ret a, e1) => let '(r, e2) := f a (h ++ e1) in (r, e1 ++ e2)
    | (Raise x, e1) => (Raise x, e1)
    end.

(** An external call: ask the world, record the call with its answer. *)
Definition call {A} (answer : Trace -> Result A) (ev : Result A -> Event) : M A :=
  fun h => let r := answer h in (r, [ev r]).

(** [try: body except DcException as error: handler error]. *)
Definition try_except_DcException {A} (body : M A) (handler : DcError -> M A) : M A :=
  fun h =>
    match body h with
    | (Raise (DcException error), e1) =>
        let '(r, e2) := handler error (h ++ e1) in (r, e1 ++ e2)
    | other => other
    end.

Notation "x <- c1 ;; c2" := (bind c1 (fun x => c2))
  (at level 100, c1 at next level, right associativity).
Notation "c1 ;;; c2" := (bind c1 (fun _ => c2))
  (at level 100, right associativity).

(** [for x in xs: body x], stopping at the first exception. *)
Fixpoint for_each {A} (xs : list A) (body : A -> M unit) : M unit :=
  match xs with
  | [] => ret tt
  | x :: xs' => body x ;;; for_each xs' body
  end.

(** ** Library functions the module relies on *)

(** [s.split(" ")]: cut at every single space; never the empty list. *)
Fixpoint split_space (s : string) : list string :=
  match s with
  | EmptyString => [EmptyString]
  | String c s' =>
      if Ascii.eqb c " "%char then EmptyString :: split_space s'
      else match split_space s' with
           | x :: xs => String c x :: xs
           | [] => [String c EmptyString]
           end
  end.

Definition digit (d : Z) : ascii := ascii_of_nat (Z.to_nat (48 + d)).

Definition zfill2 (n : Z) : string :=
  String (digit (n / 10)) (String (digit (n mod 10)) EmptyString).

Definition zfill4 (n : Z) : string :=
  String (digit (n / 1000)) (String (digit ((n / 100) mod 10))
    (String (digit ((n / 10) mod 10)) (String (digit (n mod 10)) EmptyString))).

Definition strftime_directive (c : ascii) (now : datetime) : string :=
  if Ascii.eqb c "Y"%char then zfill4 (year now)
  else if Ascii.eqb c "m"%char then zfill2 (month now)
  else if Ascii.eqb c "d"%char then zfill2 (day now)
  else if Ascii.eqb c "H"%char then zfill2 (hour now)
  else if Ascii.eqb c "M"%char then zfill2 (minute now)
  else if Ascii.eqb c "S"%char then zfill2 (second now)
  else String "%"%char (String c EmptyString).

Fixpoint strftime_fields (fmt : string) (now : datetime) : string :=
  match fmt with
  | EmptyString => EmptyString
  | String c rest =>
      if Ascii.eqb c "%"%char then
        match rest with
        | String d rest' => strftime_directive d now ++ strftime_fields rest' now
        | EmptyString => String c EmptyString
        end
      else String c (strftime_fields rest now)
  end.

(** [datetime.strftime] of Python 2 refuses years before 1900. *)
Definition strftime (now : datetime) (fmt : string) : M string :=
  if year now <? 1900
  then raise (ValueError "year is before 1900; the datetime strftime() methods require year >= 1900")
  else ret (strftime_fields fmt now).

(** [str.format] of [engine.url.username] into the database name. *)
Definition format_dbName (username : option string) : string :=
  match username with
  | Some u => u ++ "_fitsTest"
  | None => "None_fitsTest"
  end.

(** ** The module *)

Definition WATCH_FOLDER : string := "/LSST".
Definition WATCH_SITE : string := "SLAC".

Definition RERUN_SECONDS : Z := 5.

(** An entry of [sched.scheduler]'s queue: (time, priority, action). *)
Record SchedEvent := {
  ev_time : Z;
  ev_priority : Z;
  ev_action : Action
}.

Record Crawler := {
  _dataCatCfg : DataCatCfg;
  client : Client;
  sched : list SchedEvent
}.

Section WithWorld.

Variable w : World.

Definition log (lvl : Level) (fmt : string) (args : list LogArg) : M unit :=
  call (fun h => w_log w h lvl fmt args) (ELog lvl fmt args).

Definition utcnow : M datetime :=
  fun h => let now := w_utcnow w h in (Ret now, [EUtcnow now]).

Definition os_stat (file_path : string) : M stat_result :=
  call (fun h => w_stat w h file_path) (EStat file_path).

Definition client_search (c : Client) (folder version site_ query : string)
    (max_num : Z) : M Response :=
  call (fun h => w_search w h c folder version site_ query max_num)
       (ESearch c folder version site_ query max_num).

Definition client_patch_dataset (c : Client) (dataset_path : string)
    (body : gmap string value) (version : Z) (site_ : option string) : M Response :=
  call (fun h => w_patch_dataset w h c dataset_path body version site_)
       (EPatch c dataset_path body version site_).

Definition insertFile (metaDb : MetadataFitsDb) (file_path : string) : M Z :=
  call (fun h => w_insertFile w h metaDb file_path) (EInsertFile metaDb file_path).

Definition unpack (body : string) : M (list Dataset) :=
  fun _ => (w_unpack w body, []).

(** [Crawler.get_cksum]: the child process is run to completion
    ([Popen], [wait], [stdout.read] are one interaction answering the
    exit code and the captured output); a non-zero exit code falls
    through the [pass]. *)
Definition get_cksum (file_path : string) : M string :=
  cksum_proc <- call (fun h => w_subprocess w h ["cksum"; file_path])
                     (ESubprocess ["cksum"; file_path]) ;;
  let '(ec, stdout) := cksum_proc in
  (if negb (ec =? 0) then ret tt else ret tt) ;;;
  let cksum_out := split_space stdout in
  match cksum_out with
  | cksum :: _ => ret cksum
  | [] => raise (OtherError "IndexError")
  end.

(** [Crawler.get_metadata]. *)
Definition get_metadata (file_path : string) : option (gmap string value) := None.

(** Truth value of [md] in [if md:]. *)
Definition truthy (md : option (gmap string value)) : bool :=
  match md with
  | Some m => negb (bool_decide (m = ∅))
  | None => false
  end.

(** The first location of the watch site: the inner [for ... break]. *)
Fixpoint find_check_location (ls : list Location) : option Location :=
  match ls with
  | [] => None
  | location :: ls' =>
      if String.eqb (site location) WATCH_SITE then Some location
      else find_check_location ls'
  end.

Definition newline : string := String (ascii_of_nat 10) EmptyString.

(** The [except DcException as error] clause of the search. *)
Definition search_failed (error : DcError) : M Response :=
  match dc_message error with
  | Some message =>
      log WARN ("Error occurred:" ++ newline ++ "Message: %s") [AStr message] ;;;
      match dc_type error with
      | Some type => log WARN "Type: %s" [AStr type]
      | None => ret tt
      end ;;;
      match dc_cause error with
      | Some cause => log WARN "Cause: %s" [AStr cause]
      | None => ret tt
      end
  | None =>
      match dc_content error with
      | Some c => log WARN c []
      | None => raise (AttributeError "content")
      end
  end ;;;
  raise (SystemExit 1).

(** The first half of the loop body: everything up to the finished
    [scan_result]. *)
Definition scan (dataset : Dataset) : M (string * gmap string value) :=
  let check_location := find_check_location (locations dataset) in
  file_path <- match check_location with
               | Some location => ret (resource location)
               | None => raise (AttributeError "'NoneType' object has no attribute 'resource'")
               end ;;
  stat <- os_stat file_path ;;
  cksum <- get_cksum file_path ;;
  (* [str(cksum)] below is [cksum]: it is a string already *)
  let scan_result : gmap string value := ∅ in
  let scan_result := <["size" := VInt (st_size stat)]> scan_result in
  let scan_result := <["checksum" := VStr cksum]> scan_result in
  now <- utcnow ;;
  stamp <- strftime now "%Y-%m-%dT%H:%M:%SZ" ;;
  let scan_result := <["locationScanned" := VStr stamp]> scan_result in
  let scan_result := <["scanStatus" := VStr "OK"]> scan_result in
  let md := get_metadata file_path in
  let scan_result :=
    if truthy md
    then match md with
         | Some m => <["versionMetadata" := VDict m]> scan_result
         | None => scan_result
         end
    else scan_result in
  ret (file_path, scan_result).

(** The [try] block of the loop body. *)
Definition write_back (self : Crawler) (metaDb : MetadataFitsDb)
    (dataset : Dataset) (file_path : string) (scan_result : gmap string value)
    : M unit :=
  let dataset_path := path dataset in
  log DEBUG "patch_resp %s" [AStr file_path] ;;;
  patch_resp <- client_patch_dataset (client self) dataset_path scan_result
                  (versionId dataset) (Some WATCH_SITE) ;;
  log DEBUG "Inserting %s" [AStr file_path] ;;;
  fileId <- insertFile metaDb file_path ;;
  let metadata : gmap string value := <["fileId" := VInt fileId]> ∅ in
  let md_patch : gmap string value := <["versionMetadata" := VDict metadata]> ∅ in
  md_patch_resp <- client_patch_dataset (client self) dataset_path md_patch
                     (versionId dataset) None ;;
  log INFO "Inserted %d %s" [AInt fileId; AStr file_path].

(** The [except DcException as err] clause of the loop body. *)
Definition write_back_failed (file_path : string) (err : DcError) : M unit :=
  log WARN "Encountered error while updating dataset %s"
      [AStr file_path; AExn (DcException err)].

(** The body of [for dataset in results]. *)
Definition process_dataset (self : Crawler) (metaDb : MetadataFitsDb)
    (dataset : Dataset) : M unit :=
  scanned <- scan dataset ;;
  let '(file_path, scan_result) := scanned in
  try_except_DcException
    (write_back self metaDb dataset file_path scan_result)
    (write_back_failed file_path).

(** The [try] statement around the catalog query. *)
Definition query (self : Crawler) : M Response :=
  try_except_DcException
    (client_search (client self) WATCH_FOLDER "current" "all"
                   "scanStatus = 'UNSCANNED'" 1000)
    search_failed.

Definition credFileName : string := "~/.lsst/dbAuth-dbServ.ini".

(** [Crawler.run]: one scan cycle. *)
Definition run (self : Crawler) : M unit :=
  engine <- call (fun h => w_getEngineFromFile w h credFileName)
                 (EGetEngineFromFile credFileName) ;;
  let dbName := format_dbName (url_username engine) in
  metaDb <- call (fun h => w_MetadataFitsDb w h credFileName)
                 (EMetadataFitsDb credFileName) ;;
  resp <- query self ;;
  results <- unpack (content resp) ;;
  for_each results (process_dataset self metaDb).

(** ** The scheduler: [sched.scheduler(time.time, time.sleep)] *)

Definition time_time : M Z :=
  fun h => let t := w_time w h in (Ret t, [ETime t]).

Definition time_sleep (d : Z) : M unit :=
  fun _ => (Ret tt, [ESleep d]).

(** The order of queue entries: by time, then by priority. *)
Definition event_le (a b : SchedEvent) : bool :=
  (ev_time a <? ev_time b) ||
  ((ev_time a =? ev_time b) && (ev_priority a <=? ev_priority b)).

(** [heapq.heappush] on the queue, kept as a sorted list whose head is
    the heap's root. *)
Fixpoint heappush (q : list SchedEvent) (e : SchedEvent) : list SchedEvent :=
  match q with
  | [] => [e]
  | x :: q' => if event_le x e then x :: heappush q' e else e :: q
  end.

Definition set_sched (self : Crawler) (q : list SchedEvent) : Crawler :=
  {| _dataCatCfg := _dataCatCfg self; client := client self; sched := q |}.

(** [self.sched.enter(delay, priority, action, ())]: the call is recorded,
    then [enter] reads the clock and pushes the entry. *)
Definition sched_enter (self : Crawler) (delay priority : Z) (action : Action)
    : M Crawler :=
  (fun _ => (Ret tt, [EEnter delay priority action])) ;;;
  time <- time_time ;;
  ret (set_sched self
         (heappush (sched self)
            {| ev_time := time + delay; ev_priority := priority;
               ev_action := action |})).

(** [Crawler._run]. *)
Definition _run (self : Crawler) : M Crawler :=
  run self ;;;
  sched_enter self RERUN_SECONDS 1 Action_run.

Definition perform (action : Action) (self : Crawler) : M Crawler :=
  match action with
  | Action_run => _run self
  end.

(** One turn of the [while q:] loop of [scheduler.run], entered with the
    queue [checked_event :: q']. *)
Definition sched_turn (self : Crawler) (checked_event : SchedEvent)
    (q' : list SchedEvent) : M Crawler :=
  now <- time_time ;;
  if now <? ev_time checked_event then
    time_sleep (ev_time checked_event - now) ;;;
    ret self
  else
    self' <- perform (ev_action checked_event) (set_sched self q') ;;
    time_sleep 0 ;;;
    ret self'.

(** [scheduler.run]: the loop may go on for ever, so it is given fuel, one
    unit per turn; [None] says that the fuel ran out with the loop still
    going. *)
Fixpoint sched_run (fuel : nat) (self : Crawler) (h : Trace)
    : option (Result Crawler) * Trace :=
  match fuel with
  | O => (None, [])
  | S fuel' =>
      match sched self with
      | [] => (Some (Ret self), [])
      | checked_event :: q' =>
          match sched_turn self checked_event q' h with
          | (Ret self', e1) =>
              let '(r, e2) := sched_run fuel' self' (h ++ e1) in (r, e1 ++ e2)
          | (Raise x, e1) => (Some (Raise x), e1)
          end
      end
  end.

(** [Crawler.__init__]. *)
Definition __init__ (dataCatCfg : DataCatCfg) : M Crawler :=
  url <- call (fun h => w_getRestUrl w h dataCatCfg) (EGetRestUrl dataCatCfg) ;;
  c <- call (fun h => w_Client w h url) (EClient url) ;;
  let self := {| _dataCatCfg := dataCatCfg; client := c; sched := [] |} in
  _run self.

(** [Crawler.start]. *)
Definition start (fuel : nat) (self : Crawler) (h : Trace)
    : option (Result Crawler) * Trace :=
  sched_run fuel self h.

(** The part of [main] before [c.start()]. *)
Definition main_setup : M Crawler :=
  (fun _ => (Ret tt, [ESetLevel "" DEBUG])) ;;;
  dataCatCfg <- call (w_DataCatCfg w) EDataCatCfg ;;
  __init__ dataCatCfg.

(** [main]. *)
Definition main (fuel : nat) (h : Trace) : option (Result unit) * Trace :=
  match main_setup h with
  | (Ret c, e1) =>
      match start fuel c (h ++ e1) with
      | (Some (Ret _), e2) => (Some (Ret tt), e1 ++ e2)
      | (Some (Raise x), e2) => (Some (Raise x), e1 ++ e2)
      | (None, e2) => (None, e1 ++ e2)
      end
  | (Raise x, e1) => (Some (Raise x), e1)
  end.

End WithWorld.

(** The exit status of the interpreter for an outcome of [main]: none
    while it is still running, the argument of [sys.exit], 1 for any
    other uncaught exception, 0 for a normal return. *)
Definition exit_status (r : option (Result unit)) : option Z :=
  match r with
  | None => None
  | Some (Ret _) => Some 0
  | Some (Raise (SystemExit code)) => Some code
  | Some (Raise _) => Some 1
  end.

(** ** Observations on traces *)

Definition is_cycle_start (e : Event) : bool :=
  match e with EGetEngineFromFile _ _ => true | _ => false end.

Definition is_search (e : Event) : bool :=
  match e with ESearch _ _ _ _ _ _ _ => true | _ => false end.

Definition is_insertFile (e : Event) : bool :=
  match e with EInsertFile _ _ _ => true | _ => false end.

(** The first patch of a dataset carries the [site] keyword, the second
    one does not. *)
Definition is_phase1_patch (e : Event) : bool :=
  match e with EPatch _ _ _ _ (Some _) _ => true | _ => false end.

Definition is_phase2_patch (e : Event) : bool :=
  match e with EPatch _ _ _ _ None _ => true | _ => false end.

Definition is_warning (e : Event) : bool :=
  match e with ELog WARN _ _ _ => true | _ => false end.

Definition is_log (e : Event) : bool :=
  match e with ELog _ _ _ _ => true | _ => false end.

(** What [scan] may do: stat the file, run [cksum], read the clock. *)
Definition is_scan_event (e : Event) : bool :=
  match e with
  | EStat _ _ | ESubprocess _ _ | EUtcnow _ => true
  | _ => false
  end.

(** What the loop body may do. *)
Definition is_dataset_event (e : Event) : bool :=
  match e with
  | EStat _ _ | ESubprocess _ _ | EUtcnow _ | EPatch _ _ _ _ _ _
  | EInsertFile _ _ _ | ELog _ _ _ _ => true
  | _ => false
  end.

(** What the query and the loop over its page may do. *)
Definition is_page_event (e : Event) : bool :=
  match e with
  | ESearch _ _ _ _ _ _ _ => true
  | _ => is_dataset_event e
  end.

(** What a cycle may do. *)
Definition is_cycle_event (e : Event) : bool :=
  match e with
  | EGetEngineFromFile _ _ | EMetadataFitsDb _ _ => true
  | _ => is_page_event e
  end.

(** A catalog query that raised [DcException]. *)
Definition is_failed_query (e : Event) : bool :=
  match e with
  | ESearch _ _ _ _ _ _ (Raise (DcException _)) => true
  | _ => false
  end.

(** The two exceptions the [except] clause of the query ends in. *)
Definition query_abort (x : exn) : Prop :=
  x = SystemExit 1 \/ x = AttributeError "content".

(** [m] does not survive a failed query: once one shows in its trace, [m]
    has raised one of the two exceptions above. *)
Definition dies_with_query {A} (m : M A) : Prop :=
  forall h, existsb is_failed_query (snd (m h)) = true ->
            exists x, fst (m h) = Raise x /\ query_abort x.

(** Number of calls of a kind in a trace. *)
Definition calls (P : Event -> bool) (evs : Trace) : nat :=
  length (List.filter P evs).

(** [m] only ever emits events of kind [P]. *)
Definition emits {A} (P : Event -> bool) (m : M A) : Prop :=
  forall h, forallb P (snd (m h)) = true.

(** ** The timestamp *)

Definition is_digit (c : ascii) : bool :=
  (48 <=? nat_of_ascii c)%nat && (nat_of_ascii c <=? 57)%nat.

(** In a pattern the letters Y, M, D, H and S stand for one decimal digit;
    every other character stands for itself. *)
Definition is_placeholder (p : ascii) : bool :=
  Ascii.eqb p "Y"%char || Ascii.eqb p "M"%char || Ascii.eqb p "D"%char ||
  Ascii.eqb p "H"%char || Ascii.eqb p "S"%char.

Fixpoint matches_pattern (pattern s : string) : bool :=
  match pattern, s with
  | EmptyString, EmptyString => true
  | String p pattern', String c s' =>
      (if is_placeholder p then is_digit c else Ascii.eqb p c) &&
      matches_pattern pattern' s'
  | _, _ => false
  end.

(** The timestamp the format string of [run] produces. *)
Definition iso_stamp (now : datetime) : string :=
  zfill4 (year now) ++ "-" ++ zfill2 (month now) ++ "-" ++ zfill2 (day now) ++
  "T" ++ zfill2 (hour now) ++ ":" ++ zfill2 (minute now) ++ ":" ++
  zfill2 (second now) ++ "Z".

(** The [try] statement of the loop body. *)
Definition guarded (w : World) (self : Crawler) (metaDb : MetadataFitsDb)
    (dataset : Dataset) (file_path : string) (scan_result : gmap string value)
    : M unit :=
  try_except_DcException
    (write_back w self metaDb dataset file_path scan_result)
    (write_back_failed w file_path).


(** The part of [run] that follows the set-up of the database handles:
    the query and the loop over its page. *)
Definition scan_page (w : World) (self : Crawler) (metaDb : MetadataFitsDb)
    : M unit :=
  resp <- query w self ;;
  results <- unpack w (content resp) ;;
  for_each results (process_dataset w self metaDb).

(** The two calls [run] starts with, when both return. *)
Definition setup_events (engine : Engine) (metaDb : MetadataFitsDb) : Trace :=
  [EGetEngineFromFile credFileName (Ret engine);
   EMetadataFitsDb credFileName (Ret metaDb)].

(** The query of a cycle, with its outcome. *)
Definition search_event (self : Crawler) (r : Result Response) : Event :=
  ESearch (client self) WATCH_FOLDER "current" "all"
          "scanStatus = 'UNSCANNED'" 1000 r.

(** The warnings that report a failed query whose error carries a
    message: the message, then the type and the cause when present. *)
Definition error_report (error : DcError) (message : string) : Trace :=
  ELog WARN ("Error occurred:" ++ newline ++ "Message: %s") [AStr message]
       (Ret tt) ::
  match dc_type error with
  | Some type => [ELog WARN "Type: %s" [AStr type] (Ret tt)]
  | None => []
  end ++
  match dc_cause error with
  | Some cause => [ELog WARN "Cause: %s" [AStr cause] (Ret tt)]
  | None => []
  end.

(** ** Observations on the scheduler *)

(** The queue entry [_run] leaves behind when it reads the clock at [t]. *)
Definition rearm (t : Z) : SchedEvent :=
  {| ev_time := t + RERUN_SECONDS; ev_priority := 1; ev_action := Action_run |}.

Definition enter_event : Event := EEnter RERUN_SECONDS 1 Action_run.

(** A clock on which [time.sleep d] takes at least [d]: the reading that
    follows a reading and a sleep is later by the time slept. *)
Definition clock_advances (w : World) : Prop :=
  forall h d, w_time w h + d <= w_time w (h ++ [ETime (w_time w h); ESleep d]).

(** The cycles of a trace, one after the other.  A cycle is open from its
    first call, [getEngineFromFile], to the [enter] that re-arms the
    scheduler.  [cycle_state open evs] follows [evs] from a state where a
    cycle is open or not, and answers the state it ends in; it answers
    [None] when a cycle begins while another one is open, or when the
    scheduler is re-armed with no cycle open or with a delay other than
    [RERUN_SECONDS]. *)
Fixpoint cycle_state (open : bool) (evs : Trace) : option bool :=
  match evs with
  | [] => Some open
  | EGetEngineFromFile _ _ :: evs' =>
      if open then None else cycle_state true evs'
  | EEnter delay _ _ :: evs' =>
      if open && (delay =? RERUN_SECONDS) then cycle_state false evs' else None
  | _ :: evs' => cycle_state open evs'
  end.

(** Neither the beginning of a cycle nor a re-arming. *)
Definition is_inner_event (e : Event) : bool :=
  match e with
  | EGetEngineFromFile _ _ | EEnter _ _ _ => false
  | _ => true
  end.

(** ** Sample worlds

    Concrete collaborators on which the statements below are exercised:
    a catalog page, a filesystem with one missing file, a [cksum] tool, a
    clock that advances by sleeping, and patch and search behaviours that
    can be made to fail. *)

Definition sample_now : datetime :=
  {| year := 2015; month := 3; day := 7; hour := 9; minute := 5; second := 2;
     datetime_range := eq_refl |}.

(** Clock units slept so far. *)
Fixpoint slept (h : Trace) : Z :=
  match h with
  | [] => 0
  | ESleep d :: h' => d + slept h'
  | _ :: h' => slept h'
  end.

Definition sample_stat (file_path : string) : Result stat_result :=
  if String.eqb file_path "/data/missing.fits"
  then Raise (OSError "[Errno 2] No such file or directory")
  else Ret {| st_size := 100 |}.

Definition sample_cksum (argv : list string) : Result (Z * string) :=
  match argv with
  | [_; file_path] =>
      if String.eqb file_path "/data/missing.fits"
      then Ret (1, "")
      else Ret (0, ("4038471504 100 " ++ file_path)%string)
  | _ => Ret (1, "")
  end.

Definition sample_error : DcError :=
  {| dc_message := Some "Service unavailable";
     dc_type := Some "ServerError";
     dc_cause := None;
     dc_content := None |}.

Definition patch_up (site_ : option string) : Result Response :=
  Ret {| content := "" |}.

Definition patch_phase1_down (site_ : option string) : Result Response :=
  match site_ with
  | Some _ => Raise (DcException sample_error)
  | None => Ret {| content := "" |}
  end.

Definition patch_phase2_down (site_ : option string) : Result Response :=
  match site_ with
  | Some _ => Ret {| content := "" |}
  | None => Raise (DcException sample_error)
  end.

Definition sample_world (search : Result Response) (page : list Dataset)
    (patch : option string -> Result Response) : World := {|
  w_DataCatCfg := fun _ => Ret {| cfg_handle := 0 |};
  w_getRestUrl := fun _ _ => Ret "http://datacat/r";
  w_Client := fun _ url => Ret {| client_url := url |};
  w_getEngineFromFile := fun _ _ => Ret {| url_username := Some "crawler" |};
  w_MetadataFitsDb := fun _ cred => Ret {| md_credFileName := cred |};
  w_search := fun _ _ _ _ _ _ _ => search;
  w_unpack := fun _ => Ret page;
  w_stat := fun _ => sample_stat;
  w_subprocess := fun _ => sample_cksum;
  w_utcnow := fun _ => sample_now;
  w_patch_dataset := fun _ _ _ _ _ => patch;
  w_insertFile := fun _ _ _ => Ret 7;
  w_log := fun _ _ _ _ => Ret tt;
  w_time := slept
|}.

Definition search_up : Result Response := Ret {| content := "page" |}.

Definition ds_a : Dataset :=
  {| path := "/LSST/a.fits"; versionId := 1;
     locations := [ {| site := "IN2P3"; resource := "/in2p3/a.fits" |};
                    {| site := "SLAC"; resource := "/data/a.fits" |} ] |}.

Definition ds_b : Dataset :=
  {| path := "/LSST/b.fits"; versionId := 4;
     locations := [ {| site := "SLAC"; resource := "/data/b.fits" |} ] |}.

(** A dataset with no copy at the watch site. *)
Definition ds_elsewhere : Dataset :=
  {| path := "/LSST/c.fits"; versionId := 2;
     locations := [ {| site := "IN2P3"; resource := "/in2p3/c.fits" |} ] |}.

(** A dataset whose file is gone from the disk. *)
Definition ds_missing : Dataset :=
  {| path := "/LSST/m.fits"; versionId := 3;
     locations := [ {| site := "SLAC"; resource := "/data/missing.fits" |} ] |}.

Definition sample_client : Client := {| client_url := "http://datacat/r" |}.

Definition sample_crawler : Crawler :=
  {| _dataCatCfg := {| cfg_handle := 0 |}; client := sample_client;
     sched := [] |}.

Definition sample_metaDb : MetadataFitsDb :=
  {| md_credFileName := credFileName |}.

Definition sample_scan_result : gmap string value :=
  <["scanStatus" := VStr "OK"]>
    (<["locationScanned" := VStr "2015-03-07T09:05:02Z"]>
       (<["checksum" := VStr "4038471504"]>
          (<["size" := VInt 100]> ∅))).

Definition sample_cfg : DataCatCfg := {| cfg_handle := 0 |}.

(** The warning an [except] clause of the loop body logs for
    [sample_error] on the file of [ds_a]. *)
Definition sample_warning : Event :=
  ELog WARN "Encountered error while updating dataset %s"
       [AStr "/data/a.fits"; AExn (DcException sample_error)] (Ret tt).

Definition search_down : Result Response := Raise (DcException sample_error).

(** ** Further observations *)

Definition is_stat (e : Event) : bool :=
  match e with EStat _ _ => true | _ => false end.

Definition is_subprocess (e : Event) : bool :=
  match e with ESubprocess _ _ => true | _ => false end.

Definition is_enter (e : Event) : bool :=
  match e with EEnter _ _ _ => true | _ => false end.

Fixpoint contains_space (s : string) : bool :=
  match s with
  | EmptyString => false
  | String c s' => Ascii.eqb c " "%char || contains_space s'
  end.

(** [" ".join(tokens)]. *)
Fixpoint join_space (tokens : list string) : string :=
  match tokens with
  | [] => EmptyString
  | [token] => token
  | token :: tokens' => token ++ " " ++ join_space tokens'
  end.

(** An event is a catalog call made through a client other than [c]. *)
Definition uses_other_client (c : Client) (e : Event) : bool :=
  match e with
  | ESearch c' _ _ _ _ _ _ | EPatch c' _ _ _ _ _ =>
      negb (String.eqb (client_url c') (client_url c))
  | _ => false
  end.

(** An event is an insert through a handle other than [metaDb]. *)
Definition uses_other_handle (metaDb : MetadataFitsDb) (e : Event) : bool :=
  match e with
  | EInsertFile db _ _ =>
      negb (String.eqb (md_credFileName db) (md_credFileName metaDb))
  | _ => false
  end.

Definition is_metaDb_open (e : Event) : bool :=
  match e with EMetadataFitsDb _ _ => true | _ => false end.

(** ** Further sample worlds *)

(** A world whose metadata database refuses the insert. *)
Definition insert_down (w : World) : World := {|
  w_DataCatCfg := w_DataCatCfg w;
  w_getRestUrl := w_getRestUrl w;
  w_Client := w_Client w;
  w_getEngineFromFile := w_getEngineFromFile w;
  w_MetadataFitsDb := w_MetadataFitsDb w;
  w_search := w_search w;
  w_unpack := w_unpack w;
  w_stat := w_stat w;
  w_subprocess := w_subprocess w;
  w_utcnow := w_utcnow w;
  w_patch_dataset := w_patch_dataset w;
  w_insertFile := fun _ _ _ => Raise (OtherError "OperationalError");
  w_log := w_log w;
  w_time := w_time w
|}.

(** An error of the catalog that carries a raw body and no message. *)
Definition raw_error : DcError :=
  {| dc_message := None;
     dc_type := Some "ServerError";
     dc_cause := Some "timeout";
     dc_content := Some "502 Bad Gateway" |}.

(** A world at rest: the catalog has nothing to scan. *)
Definition idle_world : World := sample_world search_up [] patch_up.
(** ** Laws of the monad *)

Section Laws.

Context {A B : Type}.

Lemma bind_Ret (m : M A) (f : A -> M B) h a e1 :
  m h = (Ret a, e1) ->
  bind m f h = (fst (f a (h ++ e1)), e1 ++ snd (f a (h ++ e1))).
Proof.
  intros Hm. unfold bind. rewrite Hm. now destruct (f a (h ++ e1)).
Qed.

Lemma bind_Raise (m : M A) (f : A -> M B) h x e1 :
  m h = (Raise x, e1) -> bind m f h = (Raise x, e1).
Proof. intros Hm. unfold bind. now rewrite Hm. Qed.

Lemma try_Ret (m : M A) (handler : DcError -> M A) h a e1 :
  m h = (Ret a, e1) -> try_except_DcException m handler h = (Ret a, e1).
Proof. intros Hm. unfold try_except_DcException. now rewrite Hm. Qed.

Lemma try_caught (m : M A) (handler : DcError -> M A) h error e1 :
  m h = (Raise (DcException error), e1) ->
  try_except_DcException m handler h =
    (fst (handler error (h ++ e1)), e1 ++ snd (handler error (h ++ e1))).
Proof.
  intros Hm. unfold try_except_DcException. rewrite Hm.
  now destruct (handler error (h ++ e1)).
Qed.

Lemma try_passed (m : M A) (handler : DcError -> M A) h x e1 :
  m h = (Raise x, e1) -> (forall error, x <> DcException error) ->
  try_except_DcException m handler h = (Raise x, e1).
Proof.
  intros Hm Hx. unfold try_except_DcException. rewrite Hm.
  destruct x; try reflexivity. now destruct (Hx error).
Qed.

Lemma emits_ret P (a : A) : emits P (ret a).
Proof. now intros h. Qed.

Lemma emits_raise P x : emits P (@raise A x).
Proof. now intros h. Qed.

Lemma emits_call P (answer : Trace -> Result A) ev :
  (forall r, P (ev r) = true) -> emits P (call answer ev).
Proof. intros Hev h. unfold call. cbn. now rewrite Hev. Qed.

Lemma emits_bind P (m : M A) (f : A -> M B) :
  emits P m -> (forall a, emits P (f a)) -> emits P (bind m f).
Proof.
  intros Hm Hf h. unfold bind. specialize (Hm h).
  destruct (m h) as [[a|x] e1]; cbn in *; [|assumption].
  specialize (Hf a (h ++ e1)). destruct (f a (h ++ e1)) as [r e2]. cbn in *.
  rewrite forallb_app, Hm, Hf. reflexivity.
Qed.

Lemma emits_try P (m : M A) (handler : DcError -> M A) :
  emits P m -> (forall error, emits P (handler error)) ->
  emits P (try_except_DcException m handler).
Proof.
  intros Hm Hh h. unfold try_except_DcException. specialize (Hm h).
  destruct (m h) as [[a|x] e1]; cbn in *; [assumption|].
  destruct x; try assumption.
  specialize (Hh error (h ++ e1)).
  destruct (handler error (h ++ e1)) as [r e2]. cbn in *.
  rewrite forallb_app, Hm, Hh. reflexivity.
Qed.

Lemma emits_weaken (P Q : Event -> bool) (m : M A) :
  (forall e, P e = true -> Q e = true) -> emits P m -> emits Q m.
Proof.
  intros HPQ Hm h. specialize (Hm h).
  rewrite forallb_forall in *. auto.
Qed.

Lemma emits_In P (m : M A) h e :
  emits P m -> In e (snd (m h)) -> P e = true.
Proof.
  intros Hm Hin. specialize (Hm h). rewrite forallb_forall in Hm. auto.
Qed.

End Laws.

Lemma emits_for_each {A} P (xs : list A) (body : A -> M unit) :
  (forall x, emits P (body x)) -> emits P (for_each xs body).
Proof.
  intros Hbody. induction xs as [|x xs IH]; cbn [for_each].
  - apply emits_ret.
  - apply emits_bind; auto.
Qed.

Lemma for_each_cons_Ret {A} (x : A) xs (body : A -> M unit) h e1 :
  body x h = (Ret tt, e1) ->
  for_each (x :: xs) body h =
    (fst (for_each xs body (h ++ e1)), e1 ++ snd (for_each xs body (h ++ e1))).
Proof.
  intros Hx. cbn [for_each].
  exact (bind_Ret (body x) (fun _ => for_each xs body) h tt e1 Hx).
Qed.

Lemma for_each_cons_Raise {A} (x : A) xs (body : A -> M unit) h exc e1 :
  body x h = (Raise exc, e1) -> for_each (x :: xs) body h = (Raise exc, e1).
Proof.
  intros Hx. cbn [for_each].
  exact (bind_Raise (body x) (fun _ => for_each xs body) h exc e1 Hx).
Qed.

(** The trace of a loop is made of the traces of its passes: every event
    of it belongs to the pass of one element, entered at a history that
    extends the history of the loop. *)
Lemma for_each_event_origin {A} (xs : list A) (body : A -> M unit) h e :
  In e (snd (for_each xs body h)) ->
  exists x before, In x xs /\ In e (snd (body x (h ++ before))).
Proof.
  revert h. induction xs as [|x xs IH]; intros h; [intros []|].
  cbn [for_each]. unfold bind.
  destruct (body x h) as [[[]|exc] e1] eqn:Hx.
  - specialize (IH (h ++ e1)).
    destruct (for_each xs body (h ++ e1)) as [r e2]. cbn [snd] in *.
    intros Hin. apply in_app_iff in Hin as [Hin|Hin].
    + exists x, []. rewrite app_nil_r, Hx. split; [now left|exact Hin].
    + destruct (IH Hin) as (x' & before & Hx' & He).
      exists x', (e1 ++ before). rewrite app_assoc. split; [now right|exact He].
  - cbn [snd]. intros Hin.
    exists x, []. rewrite app_nil_r, Hx. split; [now left|exact Hin].
Qed.

Lemma calls_app P (e1 e2 : Trace) :
  calls P (e1 ++ e2) = (calls P e1 + calls P e2)%nat.
Proof. unfold calls. now rewrite List.filter_app, length_app. Qed.

(** A trace of events that are not of kind [P] has no call of kind [P]. *)
Lemma calls_none P Q (evs : Trace) :
  (forall e, Q e = true -> P e = false) ->
  forallb Q evs = true -> calls P evs = 0%nat.
Proof.
  intros HQP Hall. unfold calls.
  induction evs as [|e evs IH]; [reflexivity|].
  cbn in *. apply andb_prop in Hall as [He Hall].
  rewrite (HQP _ He). auto.
Qed.

(** ** The timestamp: lemmas *)

Lemma strftime_fields_iso now :
  strftime_fields "%Y-%m-%dT%H:%M:%SZ" now = iso_stamp now.
Proof. reflexivity. Qed.

Lemma digit_is_digit d : 0 <= d <= 9 -> is_digit (digit d) = true.
Proof.
  intros Hd.
  assert (d = 0 \/ d = 1 \/ d = 2 \/ d = 3 \/ d = 4 \/ d = 5 \/ d = 6 \/
          d = 7 \/ d = 8 \/ d = 9) as Hcases by lia.
  repeat destruct Hcases as [->|Hcases]; try reflexivity.
  subst. reflexivity.
Qed.

Lemma datetime_bounds now :
  1 <= year now <= 9999 /\ 1 <= month now <= 12 /\ 1 <= day now <= 31 /\
  0 <= hour now <= 23 /\ 0 <= minute now <= 59 /\ 0 <= second now <= 59.
Proof.
  pose proof (datetime_range now) as H. unfold datetime_fields_ok in H.
  repeat (apply andb_prop in H as [H ?]).
  lia.
Qed.

Lemma div10_digit n : 0 <= n <= 99 -> 0 <= n / 10 <= 9.
Proof.
  intros Hn. split.
  - apply Z.div_pos; lia.
  - assert (n / 10 < 10) by (apply Z.div_lt_upper_bound; lia). lia.
Qed.

Lemma mod10_digit n : 0 <= n mod 10 <= 9.
Proof. pose proof (Z.mod_pos_bound n 10). lia. Qed.

Lemma div1000_digit n : 0 <= n <= 9999 -> 0 <= n / 1000 <= 9.
Proof.
  intros Hn. split.
  - apply Z.div_pos; lia.
  - assert (n / 1000 < 10) by (apply Z.div_lt_upper_bound; lia). lia.
Qed.

Lemma iso_stamp_format now :
  matches_pattern "YYYY-MM-DDTHH:MM:SSZ" (iso_stamp now) = true.
Proof.
  destruct (datetime_bounds now) as (Hy & Hmo & Hd & Hh & Hmi & Hs).
  cbv beta iota delta [iso_stamp zfill4 zfill2 String.append matches_pattern
                        is_placeholder Ascii.eqb Bool.eqb orb].
  rewrite !digit_is_digit;
    auto using mod10_digit, div10_digit, div1000_digit with zarith.
Qed.

(** ** The loop body, part by part *)

Section Body.

Variable w : World.

Lemma emits_utcnow P :
  (forall now, P (EUtcnow now) = true) -> emits P (utcnow w).
Proof. intros HP h. cbn. now rewrite HP. Qed.

Lemma emits_log P lvl fmt args :
  (forall r, P (ELog lvl fmt args r) = true) -> emits P (log w lvl fmt args).
Proof. intros HP. now apply emits_call. Qed.

Ltac emits_tac :=
  repeat first
    [ apply emits_ret | apply emits_raise
    | apply emits_call; intros ?; reflexivity
    | apply emits_utcnow; intros ?; reflexivity
    | apply emits_bind; [|intros ?]
    | apply emits_try; [|intros ?]
    | match goal with
      | |- emits _ (match ?x with _ => _ end) => destruct x
      end ].

Lemma scan_emits dataset : emits is_scan_event (scan w dataset).
Proof. unfold scan, os_stat, get_cksum, strftime. emits_tac. Qed.

Lemma guarded_emits self metaDb dataset file_path scan_result :
  emits is_dataset_event (guarded w self metaDb dataset file_path scan_result).
Proof.
  unfold guarded, write_back, write_back_failed, log, client_patch_dataset,
    insertFile.
  emits_tac.
Qed.

Lemma search_failed_emits error : emits is_log (search_failed w error).
Proof. unfold search_failed, log. emits_tac. Qed.

(** The loop body is [scan] followed by the guarded write-back. *)
Lemma process_dataset_scan_Raise self metaDb dataset h x e1 :
  scan w dataset h = (Raise x, e1) ->
  process_dataset w self metaDb dataset h = (Raise x, e1).
Proof. intros Hscan. unfold process_dataset. now apply bind_Raise. Qed.

Lemma process_dataset_scan_Ret self metaDb dataset h file_path scan_result e1 :
  scan w dataset h = (Ret (file_path, scan_result), e1) ->
  process_dataset w self metaDb dataset h =
    (fst (guarded w self metaDb dataset file_path scan_result (h ++ e1)),
     e1 ++ snd (guarded w self metaDb dataset file_path scan_result (h ++ e1))).
Proof.
  intros Hscan. unfold process_dataset.
  now rewrite (bind_Ret _ _ _ _ _ Hscan).
Qed.

Lemma process_dataset_emits self metaDb dataset :
  emits is_dataset_event (process_dataset w self metaDb dataset).
Proof.
  unfold process_dataset. apply emits_bind.
  - eapply emits_weaken; [|apply scan_emits]. now intros [].
  - intros [file_path scan_result]. apply guarded_emits.
Qed.

End Body.

(** ** Case analysis of the loop body *)

Ltac unfold_guarded :=
  cbv beta iota zeta delta
    [guarded write_back write_back_failed try_except_DcException bind call ret
     raise log client_patch_dataset insertFile].

Ltac unfold_scan :=
  cbv beta iota zeta delta
    [scan get_cksum strftime bind call ret raise utcnow os_stat get_metadata
     truthy].

(** Split on the answer that decides the outermost [match] of the goal. *)
Ltac case_step :=
  match goal with
  | |- context [match ?x with _ => _ end] =>
      lazymatch x with
      | context [match _ with _ => _ end] => fail
      | _ => destruct x eqn:?
      end
  end.

Ltac split_cases := repeat (cbv beta iota zeta; case_step).

Ltac absurd_In H :=
  cbn [snd fst app In] in H;
  repeat destruct H as [H|H]; try discriminate H; try contradiction.

Section Body_cases.

Variable w : World.

(** What a successful [scan] did and what it built. *)
Lemma scan_Ret dataset h file_path scan_result e1 :
  scan w dataset h = (Ret (file_path, scan_result), e1) ->
  exists location stat ec stdout cksum tokens now,
    find_check_location (locations dataset) = Some location /\
    file_path = resource location /\
    e1 = [EStat file_path (Ret stat);
          ESubprocess ["cksum"; file_path] (Ret (ec, stdout));
          EUtcnow now] /\
    split_space stdout = cksum :: tokens /\
    1900 <= year now /\
    scan_result =
      <["scanStatus" := VStr "OK"]>
        (<["locationScanned" := VStr (iso_stamp now)]>
           (<["checksum" := VStr cksum]>
              (<["size" := VInt (st_size stat)]> ∅))).
Proof.
  unfold_scan. split_cases; cbn [app]; intros Heq; try discriminate Heq.
  all: injection Heq as <- <- <-.
  all: repeat eexists; try eassumption; try reflexivity.
  all: match goal with H : (_ <? _) = false |- _ => apply Z.ltb_ge in H end.
  all: assumption.
Qed.

(** A first patch that raised is the last thing the [try] block did. *)
Lemma guarded_phase1_raised self metaDb dataset file_path scan_result h
    c p body v s x :
  In (EPatch c p body v (Some s) (Raise x))
     (snd (guarded w self metaDb dataset file_path scan_result h)) ->
  calls is_insertFile
    (snd (guarded w self metaDb dataset file_path scan_result h)) = 0%nat /\
  calls is_phase2_patch
    (snd (guarded w self metaDb dataset file_path scan_result h)) = 0%nat.
Proof.
  unfold_guarded. split_cases.
  all: cbn [snd app calls List.filter length is_insertFile is_phase2_patch].
  all: try (intros _; split; reflexivity).
  all: intros H; absurd_In H.
Qed.

(** The arguments of every first patch. *)
Lemma guarded_phase1_args self metaDb dataset file_path scan_result h
    c p body v s r :
  In (EPatch c p body v (Some s) r)
     (snd (guarded w self metaDb dataset file_path scan_result h)) ->
  c = client self /\ p = path dataset /\ body = scan_result /\
  v = versionId dataset /\ s = WATCH_SITE.
Proof.
  unfold_guarded. split_cases.
  all: intros H; absurd_In H.
  all: injection H as <- <- <- <- <- _; repeat split; reflexivity.
Qed.

End Body_cases.

(** ** The two-phase write-back *)

(** C1. Whenever the first patch of a dataset (the one carrying the scan
    result and the [site] keyword) raises, whatever the exception, the
    dataset's pass through the loop body makes no call to
    [MetadataFitsDb.insertFile] and no second patch. *)
Theorem phase1_failure_stops_the_dataset
    w self metaDb dataset h c p body v s x :
  In (EPatch c p body v (Some s) (Raise x))
     (snd (process_dataset w self metaDb dataset h)) ->
  calls is_insertFile (snd (process_dataset w self metaDb dataset h)) = 0%nat /\
  calls is_phase2_patch (snd (process_dataset w self metaDb dataset h)) = 0%nat.
Proof.
  intros Hin.
  destruct (scan w dataset h) as [[[file_path scan_result]|exc] e1] eqn:Hscan.
  - rewrite (process_dataset_scan_Ret _ _ _ _ _ _ _ _ Hscan) in *.
    pose proof (scan_emits w dataset h) as He1. rewrite Hscan in He1.
    cbn [snd] in *. apply in_app_iff in Hin as [Hin|Hin].
    + rewrite forallb_forall in He1. now apply He1 in Hin.
    + apply guarded_phase1_raised in Hin as [Hins Hp2].
      rewrite !calls_app, Hins, Hp2.
      rewrite !(calls_none _ is_scan_event e1); auto; now intros [].
  - rewrite (process_dataset_scan_Raise _ _ _ _ _ _ _ Hscan) in *.
    pose proof (scan_emits w dataset h) as He1. rewrite Hscan in He1.
    cbn [snd] in *. rewrite forallb_forall in He1. now apply He1 in Hin.
Qed.

Lemma phase1_failure_stops_the_dataset_witness :
  let w := sample_world search_up [ds_a] patch_phase1_down in
  let evs := snd (process_dataset w sample_crawler sample_metaDb ds_a []) in
  In (EPatch sample_client "/LSST/a.fits" sample_scan_result 1 (Some "SLAC")
        (Raise (DcException sample_error))) evs /\
  calls is_insertFile evs = 0%nat /\ calls is_phase2_patch evs = 0%nat.
Proof.
  intros w evs.
  assert (In (EPatch sample_client "/LSST/a.fits" sample_scan_result 1
                (Some "SLAC") (Raise (DcException sample_error))) evs) as Hin.
  { vm_compute. do 4 right. left. reflexivity. }
  split; [exact Hin|].
  exact (phase1_failure_stops_the_dataset _ _ _ _ _ _ _ _ _ _ _ Hin).
Defined.

(** ** The scan result *)

Lemma scan_result_fields (size : Z) (cksum stamp : string) :
  let body : gmap string value :=
    <["scanStatus" := VStr "OK"]>
      (<["locationScanned" := VStr stamp]>
         (<["checksum" := VStr cksum]> (<["size" := VInt size]> ∅))) in
  body !! "size" = Some (VInt size) /\
  body !! "checksum" = Some (VStr cksum) /\
  body !! "locationScanned" = Some (VStr stamp) /\
  body !! "scanStatus" = Some (VStr "OK") /\
  body !! "versionMetadata" = None /\
  dom body = {[ "size"; "checksum"; "locationScanned"; "scanStatus" ]}.
Proof.
  intros body. subst body.
  do 5 (split; [by simplify_map_eq|]).
  rewrite !dom_insert_L, dom_empty_L. set_solver.
Qed.

(** C7. The body of every first patch of a dataset holds the size that
    [os.stat] reported, the first space-delimited token of the output of
    [cksum], the reading of the UTC clock taken in between, written as
    YYYY-MM-DDTHH:MM:SSZ, and the status OK; it has these four keys and
    no other, so [versionMetadata] is never part of it. *)
Theorem phase1_patch_body w self metaDb dataset h c p body v s r :
  In (EPatch c p body v (Some s) r)
     (snd (process_dataset w self metaDb dataset h)) ->
  exists file_path stat ec stdout now,
    snd (scan w dataset h) =
      [EStat file_path (Ret stat);
       ESubprocess ["cksum"; file_path] (Ret (ec, stdout));
       EUtcnow now] /\
    body !! "size" = Some (VInt (st_size stat)) /\
    body !! "checksum" = Some (VStr (hd "" (split_space stdout))) /\
    body !! "locationScanned" = Some (VStr (iso_stamp now)) /\
    matches_pattern "YYYY-MM-DDTHH:MM:SSZ" (iso_stamp now) = true /\
    body !! "scanStatus" = Some (VStr "OK") /\
    body !! "versionMetadata" = None /\
    dom body = {[ "size"; "checksum"; "locationScanned"; "scanStatus" ]}.
Proof.
  intros Hin.
  pose proof (scan_emits w dataset h) as He1.
  destruct (scan w dataset h) as [[[file_path scan_result]|exc] e1] eqn:Hscan.
  - rewrite (process_dataset_scan_Ret _ _ _ _ _ _ _ _ Hscan) in Hin.
    cbn [snd] in *. apply in_app_iff in Hin as [Hin|Hin].
    { rewrite forallb_forall in He1. now apply He1 in Hin. }
    apply guarded_phase1_args in Hin as (_ & _ & -> & _ & _).
    apply scan_Ret in Hscan
      as (location & stat & ec & stdout & cksum & tokens & now &
          _ & _ & -> & Hsplit & _ & ->).
    exists file_path, stat, ec, stdout, now.
    rewrite Hsplit. cbn [hd].
    pose proof (scan_result_fields (st_size stat) cksum (iso_stamp now))
      as (? & ? & ? & ? & ? & ?).
    pose proof (iso_stamp_format now).
    repeat split; assumption.
  - rewrite (process_dataset_scan_Raise _ _ _ _ _ _ _ Hscan) in Hin.
    cbn [snd] in *. rewrite forallb_forall in He1. now apply He1 in Hin.
Qed.

Lemma phase1_patch_body_witness :
  let w := sample_world search_up [ds_a] patch_up in
  let evs := snd (process_dataset w sample_crawler sample_metaDb ds_a []) in
  In (EPatch sample_client "/LSST/a.fits" sample_scan_result 1 (Some "SLAC")
        (Ret {| content := "" |})) evs /\
  sample_scan_result !! "locationScanned" =
    Some (VStr "2015-03-07T09:05:02Z") /\
  sample_scan_result !! "versionMetadata" = None /\
  dom sample_scan_result =
    {[ "size"; "checksum"; "locationScanned"; "scanStatus" ]}.
Proof.
  intros w evs.
  assert (In (EPatch sample_client "/LSST/a.fits" sample_scan_result 1
                (Some "SLAC") (Ret {| content := "" |})) evs) as Hin.
  { vm_compute. do 4 right. left. reflexivity. }
  split; [exact Hin|].
  destruct (phase1_patch_body _ _ _ _ _ _ _ _ _ _ _ Hin)
    as (file_path & stat & ec & stdout & now & Hscan & _ & _ & Hstamp & _ &
        _ & Hnone & Hdom).
  assert (now = sample_now) as -> by (injection Hscan; congruence).
  split; [exact Hstamp|]. split; [exact Hnone|exact Hdom].
Defined.

(** ** Failures of the patches *)

Section Patch_failures.

Variable w : World.

(** A patch that raised [DcException] is answered by the [except] clause
    of the loop body: one warning, the last call of the dataset, whose
    outcome is the outcome of the whole statement. *)
Lemma guarded_patch_DcException self metaDb dataset file_path scan_result h
    c p body v s error :
  In (EPatch c p body v s (Raise (DcException error)))
     (snd (guarded w self metaDb dataset file_path scan_result h)) ->
  let evs := snd (guarded w self metaDb dataset file_path scan_result h) in
  let r := fst (guarded w self metaDb dataset file_path scan_result h) in
  let warning :=
    ELog WARN "Encountered error while updating dataset %s"
         [AStr file_path; AExn (DcException error)] r in
  (exists h', r = w_log w h' WARN "Encountered error while updating dataset %s"
                    [AStr file_path; AExn (DcException error)]) /\
  last evs = Some warning /\
  List.filter is_warning evs = [warning] /\
  match s with
  | Some _ => forall r', ~ In (ELog DEBUG "Inserting %s" [AStr file_path] r') evs
  | None => In (ELog DEBUG "Inserting %s" [AStr file_path] (Ret tt)) evs
  end.
Proof.
  unfold_guarded. split_cases.
  all: intros H; absurd_In H.
  all: inversion H; subst; clear H.
  all: cbn [snd fst app last List.filter is_warning].
  all: (split; [eexists; first [reflexivity | symmetry; eassumption]|]).
  all: (split; [reflexivity|]); (split; [reflexivity|]).
  all: try (intros r' H'; absurd_In H').
  all: cbn [In]; repeat match goal with u : unit |- _ => destruct u end; auto 10.
Qed.

End Patch_failures.

(** The same, seen from the whole loop body. *)
Lemma process_dataset_patch_DcException
    w self metaDb dataset h c p body v s error :
  In (EPatch c p body v s (Raise (DcException error)))
     (snd (process_dataset w self metaDb dataset h)) ->
  let evs := snd (process_dataset w self metaDb dataset h) in
  let r := fst (process_dataset w self metaDb dataset h) in
  exists file_path,
    let warning :=
      ELog WARN "Encountered error while updating dataset %s"
           [AStr file_path; AExn (DcException error)] r in
    (exists h', r = w_log w h' WARN "Encountered error while updating dataset %s"
                      [AStr file_path; AExn (DcException error)]) /\
    last evs = Some warning /\
    List.filter is_warning evs = [warning] /\
    match s with
    | Some _ =>
        forall r', ~ In (ELog DEBUG "Inserting %s" [AStr file_path] r') evs
    | None => In (ELog DEBUG "Inserting %s" [AStr file_path] (Ret tt)) evs
    end.
Proof.
  intros Hin.
  pose proof (scan_emits w dataset h) as He1.
  destruct (scan w dataset h) as [[[file_path scan_result]|exc] e1] eqn:Hscan.
  - rewrite (process_dataset_scan_Ret _ _ _ _ _ _ _ _ Hscan) in *.
    cbn [fst snd] in *.
    pose proof (proj1 (forallb_forall _ _) He1) as He1'.
    apply in_app_iff in Hin as [Hin|Hin]; [now apply He1' in Hin|].
    apply guarded_patch_DcException in Hin
      as (Hr & Hlast & Hwarn & Hins).
    exists file_path. cbn zeta. split; [exact Hr|].
    split; [now rewrite last_app, Hlast|].
    split.
    + rewrite List.filter_app, Hwarn.
      assert (List.filter is_warning e1 = []) as ->; [|reflexivity].
      apply length_zero_iff_nil.
      apply (calls_none is_warning is_scan_event); [now intros []|exact He1].
    + destruct s.
      * intros r' Hin'. apply in_app_iff in Hin' as [Hin'|Hin'].
        -- now apply He1' in Hin'.
        -- now apply (Hins r').
      * apply in_app_iff. now right.
  - rewrite (process_dataset_scan_Raise _ _ _ _ _ _ _ Hscan) in *.
    cbn [snd] in *. rewrite forallb_forall in He1. now apply He1 in Hin.
Qed.

(** C2, as the code has it.  A [DcException] raised by either patch of a
    dataset is caught at the per-dataset boundary and answered by one
    warning; when the logger returns from that call, the loop body
    returns normally and the loop goes on with the remaining datasets of
    the page. *)
Theorem patch_failure_is_contained
    w self metaDb dataset rest h c p body v s error :
  (forall h' fmt args, w_log w h' WARN fmt args = Ret tt) ->
  In (EPatch c p body v s (Raise (DcException error)))
     (snd (process_dataset w self metaDb dataset h)) ->
  let evs := snd (process_dataset w self metaDb dataset h) in
  fst (process_dataset w self metaDb dataset h) = Ret tt /\
  (exists file_path,
     last evs = Some (ELog WARN "Encountered error while updating dataset %s"
                        [AStr file_path; AExn (DcException error)] (Ret tt))) /\
  for_each (dataset :: rest) (process_dataset w self metaDb) h =
    (fst (for_each rest (process_dataset w self metaDb) (h ++ evs)),
     evs ++ snd (for_each rest (process_dataset w self metaDb) (h ++ evs))).
Proof.
  intros Hlog Hin.
  apply process_dataset_patch_DcException in Hin
    as (file_path & (h' & Hr) & Hlast & _ & _).
  rewrite Hlog in Hr. cbn zeta.
  split; [exact Hr|]. split.
  - exists file_path. now rewrite Hr in Hlast.
  - apply for_each_cons_Ret. rewrite <- Hr. apply surjective_pairing.
Qed.

Lemma patch_failure_is_contained_witness :
  let w := sample_world search_up [ds_a; ds_b] patch_phase2_down in
  let body := process_dataset w sample_crawler sample_metaDb in
  fst (body ds_a []) = Ret tt /\
  last (snd (body ds_a [])) = Some sample_warning /\
  for_each [ds_a; ds_b] body [] =
    (fst (for_each [ds_b] body ([] ++ snd (body ds_a []))),
     snd (body ds_a []) ++ snd (for_each [ds_b] body ([] ++ snd (body ds_a [])))) /\
  calls is_phase1_patch (snd (for_each [ds_a; ds_b] body [])) = 2%nat.
Proof.
  intros w body.
  assert (In (EPatch sample_client "/LSST/a.fits"
                (<["versionMetadata" := VDict (<["fileId" := VInt 7]> ∅)]> ∅)
                1 None (Raise (DcException sample_error)))
             (snd (body ds_a []))) as Hin.
  { vm_compute. do 7 right. left. reflexivity. }
  destruct (patch_failure_is_contained w sample_crawler sample_metaDb ds_a
              [ds_b] [] _ _ _ _ _ _ (fun _ _ _ => eq_refl) Hin)
    as (Hret & (file_path & Hlast) & Hloop).
  split; [exact Hret|]. split; [|split; [exact Hloop|]].
  - vm_compute. reflexivity.
  - vm_compute. reflexivity.
Defined.

(** C2 as the spec has it fails on a file that is gone: the [OSError] of
    [os.stat] is caught nowhere, leaves the loop and [run], and the
    dataset that follows in the page is never looked at. *)
Lemma stat_failure_escapes_the_loop :
  let w := sample_world search_up [ds_missing; ds_a] patch_up in
  run w sample_crawler [] =
    (Raise (OSError "[Errno 2] No such file or directory"),
     setup_events {| url_username := Some "crawler" |} sample_metaDb ++
     [search_event sample_crawler search_up;
      EStat "/data/missing.fits"
            (Raise (OSError "[Errno 2] No such file or directory"))]) /\
  calls is_phase1_patch (snd (run w sample_crawler [])) = 0%nat.
Proof. vm_compute. split; reflexivity. Qed.

(** C4, as the code has it.  A [DcException] of either patch is logged
    by the one [except] clause of the loop body: a single warning with
    the same format for both phases, carrying the file path and the
    error.  Which patch failed shows only in what precedes the warning:
    the debug line of the insert is in the dataset's log when the second
    patch failed and is not when the first one failed. *)
Theorem patch_failure_warning w self metaDb dataset h c p body v s error :
  In (EPatch c p body v s (Raise (DcException error)))
     (snd (process_dataset w self metaDb dataset h)) ->
  let evs := snd (process_dataset w self metaDb dataset h) in
  exists file_path r,
    List.filter is_warning evs =
      [ELog WARN "Encountered error while updating dataset %s"
            [AStr file_path; AExn (DcException error)] r] /\
    match s with
    | Some _ =>
        forall r', ~ In (ELog DEBUG "Inserting %s" [AStr file_path] r') evs
    | None => In (ELog DEBUG "Inserting %s" [AStr file_path] (Ret tt)) evs
    end.
Proof.
  intros Hin.
  apply process_dataset_patch_DcException in Hin
    as (file_path & _ & _ & Hwarn & Hins).
  eexists file_path, _. split; [exact Hwarn|exact Hins].
Qed.

Lemma patch_failure_warning_witness :
  let w := sample_world search_up [ds_a] patch_phase2_down in
  let evs := snd (process_dataset w sample_crawler sample_metaDb ds_a []) in
  List.filter is_warning evs = [sample_warning] /\
  In (ELog DEBUG "Inserting %s" [AStr "/data/a.fits"] (Ret tt)) evs.
Proof.
  intros w evs. subst evs w.
  assert (In (EPatch sample_client "/LSST/a.fits"
                (<["versionMetadata" := VDict (<["fileId" := VInt 7]> ∅)]> ∅)
                1 None (Raise (DcException sample_error)))
             (snd (process_dataset
                     (sample_world search_up [ds_a] patch_phase2_down)
                     sample_crawler sample_metaDb ds_a []))) as Hin.
  { vm_compute. do 7 right. left. reflexivity. }
  destruct (patch_failure_warning _ _ _ _ _ _ _ _ _ _ _ Hin)
    as (file_path & r & Hwarn & Hins).
  assert (file_path = "/data/a.fits") as ->.
  { assert (List.filter is_warning
              (snd (process_dataset
                      (sample_world search_up [ds_a] patch_phase2_down)
                      sample_crawler sample_metaDb ds_a [])) =
            [sample_warning]) as Heq by (vm_compute; reflexivity).
    cbn zeta in Hwarn. rewrite Heq in Hwarn. injection Hwarn. congruence. }
  split; [vm_compute; reflexivity|exact Hins].
Defined.

(** C4 as the spec has it fails: the warning of a second patch that
    failed after a successful insert is the very warning of a first patch
    that failed. *)
Lemma phase2_warning_is_phase1_warning :
  let w1 := sample_world search_up [ds_a] patch_phase1_down in
  let w2 := sample_world search_up [ds_a] patch_phase2_down in
  calls is_insertFile (snd (run w1 sample_crawler [])) = 0%nat /\
  calls is_insertFile (snd (run w2 sample_crawler [])) = 1%nat /\
  List.filter is_warning (snd (run w1 sample_crawler [])) = [sample_warning] /\
  List.filter is_warning (snd (run w2 sample_crawler [])) = [sample_warning].
Proof. vm_compute. repeat split; reflexivity. Qed.

(** ** The missing location *)

(** A dataset with no location at the watch site makes the loop body
    raise [AttributeError] before any call; nothing catches it, so the
    loop stops there, whatever follows in the page. *)
Lemma missing_location_raises w self metaDb dataset rest h :
  find_check_location (locations dataset) = None ->
  for_each (dataset :: rest) (process_dataset w self metaDb) h =
    (Raise (AttributeError "'NoneType' object has no attribute 'resource'"), []).
Proof.
  intros Hnone. apply for_each_cons_Raise. apply process_dataset_scan_Raise.
  unfold scan, bind, raise. now rewrite Hnone.
Qed.

(** C3 fails on the code.  At a page whose first dataset has no location
    at the watch site the dataset is not skipped: the cycle raises
    [AttributeError] out of [run], and the dataset after it is never
    scanned. *)
Theorem missing_location_aborts_the_cycle :
  let w := sample_world search_up [ds_elsewhere; ds_a] patch_up in
  run w sample_crawler [] =
    (Raise (AttributeError "'NoneType' object has no attribute 'resource'"),
     setup_events {| url_username := Some "crawler" |} sample_metaDb ++
     [search_event sample_crawler search_up]) /\
  calls is_scan_event (snd (run w sample_crawler [])) = 0%nat.
Proof. vm_compute. split; reflexivity. Qed.

(** ** The checksum *)

Lemma split_space_cons s : exists token tokens, split_space s = token :: tokens.
Proof.
  induction s as [|c s (token & tokens & IH)]; cbn [split_space]; [eauto|].
  destruct (Ascii.eqb c " "); [eauto|]. rewrite IH. eauto.
Qed.

(** C8 fails on the code.  Whatever exit code the [cksum] process ends
    with, [get_cksum] returns the first token of what the process wrote:
    a failed [cksum] is not reported to the caller. *)
Theorem get_cksum_ignores_exit_code w file_path h ec stdout :
  w_subprocess w h ["cksum"; file_path] = Ret (ec, stdout) ->
  get_cksum w file_path h =
    (Ret (hd "" (split_space stdout)),
     [ESubprocess ["cksum"; file_path] (Ret (ec, stdout))]).
Proof.
  intros Hproc. unfold get_cksum, bind, call, ret. rewrite Hproc.
  destruct (split_space_cons stdout) as (token & tokens & ->).
  now destruct (negb (ec =? 0)).
Qed.

Lemma get_cksum_ignores_exit_code_witness :
  get_cksum (sample_world search_up [ds_missing] patch_up)
            "/data/missing.fits" [] =
    (Ret "", [ESubprocess ["cksum"; "/data/missing.fits"] (Ret (1, ""))]).
Proof.
  exact (get_cksum_ignores_exit_code
           (sample_world search_up [ds_missing] patch_up)
           "/data/missing.fits" [] 1 "" eq_refl).
Defined.

(** ** The cycle *)

Section Cycle.

Variable w : World.

Lemma run_setup_Ret self h engine metaDb :
  w_getEngineFromFile w h credFileName = Ret engine ->
  w_MetadataFitsDb w (h ++ [EGetEngineFromFile credFileName (Ret engine)])
    credFileName = Ret metaDb ->
  run w self h =
    (fst (scan_page w self metaDb (h ++ setup_events engine metaDb)),
     setup_events engine metaDb ++
     snd (scan_page w self metaDb (h ++ setup_events engine metaDb))).
Proof.
  intros Hengine HmetaDb. unfold run.
  rewrite (bind_Ret _ _ h engine [EGetEngineFromFile credFileName (Ret engine)])
    by (unfold call; now rewrite Hengine).
  rewrite (bind_Ret _ _ _ metaDb [EMetadataFitsDb credFileName (Ret metaDb)])
    by (unfold call; now rewrite HmetaDb).
  cbn [fst snd]. rewrite <- !app_assoc. reflexivity.
Qed.

Lemma filter_none P Q (evs : Trace) :
  (forall e, Q e = true -> P e = false) ->
  forallb Q evs = true -> List.filter P evs = [].
Proof.
  intros HQP Hall. apply length_zero_iff_nil.
  now apply (calls_none P Q).
Qed.

Lemma unpack_emits P body : emits P (unpack w body).
Proof. now intros h. Qed.

Lemma loop_emits self metaDb results :
  emits is_dataset_event (for_each results (process_dataset w self metaDb)).
Proof. apply emits_for_each. intros dataset. apply process_dataset_emits. Qed.

(** The three outcomes of the query. *)
Lemma query_Ret self h resp :
  w_search w h (client self) WATCH_FOLDER "current" "all"
    "scanStatus = 'UNSCANNED'" 1000 = Ret resp ->
  query w self h = (Ret resp, [search_event self (Ret resp)]).
Proof.
  intros Hsearch. unfold query, try_except_DcException, client_search, call.
  now rewrite Hsearch.
Qed.

Lemma query_DcException self h error :
  w_search w h (client self) WATCH_FOLDER "current" "all"
    "scanStatus = 'UNSCANNED'" 1000 = Raise (DcException error) ->
  let failure := search_event self (Raise (DcException error)) in
  query w self h =
    (fst (search_failed w error (h ++ [failure])),
     failure :: snd (search_failed w error (h ++ [failure]))).
Proof.
  intros Hsearch. unfold query, try_except_DcException, client_search, call.
  rewrite Hsearch. cbn zeta.
  now destruct (search_failed w error _).
Qed.

Lemma query_Raise self h x :
  w_search w h (client self) WATCH_FOLDER "current" "all"
    "scanStatus = 'UNSCANNED'" 1000 = Raise x ->
  (forall error, x <> DcException error) ->
  query w self h = (Raise x, [search_event self (Raise x)]).
Proof.
  intros Hsearch Hx. unfold query, try_except_DcException, client_search, call.
  rewrite Hsearch. destruct x; try reflexivity. now destruct (Hx error).
Qed.

(** The [except] clause of the query never returns. *)
Lemma search_failed_raises error h :
  exists x, fst (search_failed w error h) = Raise x.
Proof.
  unfold search_failed, bind, log, call, ret, raise.
  split_cases; cbn [fst]; eauto.
Qed.

(** With a message on the error and a logger that returns, it reports
    and exits. *)
Lemma search_failed_message error message h :
  dc_message error = Some message ->
  (forall h' fmt args, w_log w h' WARN fmt args = Ret tt) ->
  search_failed w error h = (Raise (SystemExit 1), error_report error message).
Proof.
  intros Hmessage Hlog.
  unfold search_failed, error_report, bind, log, call, ret, raise.
  rewrite Hmessage.
  destruct (dc_type error), (dc_cause error); rewrite ?Hlog; cbn;
    rewrite ?Hlog; reflexivity.
Qed.

(** With a logger that returns, whatever the error carries, it ends in
    [sys.exit(1)] or in the [AttributeError] of the missing [content]. *)
Lemma search_failed_exit error h :
  (forall h' fmt args, w_log w h' WARN fmt args = Ret tt) ->
  fst (search_failed w error h) = Raise (SystemExit 1) \/
  fst (search_failed w error h) = Raise (AttributeError "content").
Proof.
  intros Hlog.
  unfold search_failed, bind, log, call, ret, raise.
  destruct (dc_message error), (dc_type error), (dc_cause error),
    (dc_content error); rewrite ?Hlog; cbn; rewrite ?Hlog; cbn; auto.
Qed.

Lemma query_emits self : emits is_page_event (query w self).
Proof.
  unfold query. apply emits_try.
  - apply emits_call. now intros r.
  - intros error. eapply emits_weaken; [|apply search_failed_emits].
    now intros [].
Qed.

Lemma scan_page_emits self metaDb : emits is_page_event (scan_page w self metaDb).
Proof.
  unfold scan_page. apply emits_bind; [apply query_emits|]. intros resp.
  apply emits_bind; [apply unpack_emits|]. intros results.
  eapply emits_weaken; [|apply loop_emits]. now intros [].
Qed.

Lemma run_emits self : emits is_cycle_event (run w self).
Proof.
  unfold run. apply emits_bind; [apply emits_call; now intros r|]. intros engine.
  apply emits_bind; [apply emits_call; now intros r|]. intros metaDb.
  eapply emits_weaken; [|apply (scan_page_emits self metaDb)]. now intros [].
Qed.

(** The query is the first thing [scan_page] does, and its only search. *)
Lemma scan_page_search self metaDb h :
  List.filter is_search (snd (scan_page w self metaDb h)) =
    [search_event self
       (w_search w h (client self) WATCH_FOLDER "current" "all"
          "scanStatus = 'UNSCANNED'" 1000)].
Proof.
  unfold scan_page.
  destruct (w_search w h (client self) WATCH_FOLDER "current" "all"
              "scanStatus = 'UNSCANNED'" 1000) as [resp|x] eqn:Hsearch.
  - rewrite (bind_Ret _ _ _ _ _ (query_Ret _ _ _ Hsearch)). cbn [snd app].
    cbn [List.filter search_event is_search]. f_equal.
    apply (filter_none _ is_dataset_event); [now intros []|].
    apply (emits_bind is_dataset_event (unpack w (content resp))
             (fun results => for_each results (process_dataset w self metaDb))).
    + apply unpack_emits.
    + intros results. apply loop_emits.
  - assert (exists x' tail,
               query w self h = (Raise x', search_event self (Raise x) :: tail) /\
               forallb is_log tail = true) as (x' & tail & Hquery & Htail).
    { destruct x as [error| | | | | |].
      1: { destruct (search_failed_raises error
                       (h ++ [search_event self (Raise (DcException error))]))
             as [x' Hx'].
           eexists x', _. split.
           - rewrite (query_DcException _ _ _ Hsearch). cbn zeta.
             rewrite Hx'. reflexivity.
           - apply search_failed_emits. }
      all: eexists _, []; split;
        [apply (query_Raise _ _ _ Hsearch); intros error; discriminate
        |reflexivity]. }
    rewrite (bind_Raise _ _ _ _ _ Hquery). cbn [snd].
    cbn [List.filter search_event is_search]. f_equal.
    apply (filter_none _ is_log); [now intros []|exact Htail].
Qed.

(** A cycle whose query returns a page is the loop over that page. *)
Lemma run_page self h engine metaDb resp results :
  w_getEngineFromFile w h credFileName = Ret engine ->
  w_MetadataFitsDb w (h ++ [EGetEngineFromFile credFileName (Ret engine)])
    credFileName = Ret metaDb ->
  w_search w (h ++ setup_events engine metaDb) (client self) WATCH_FOLDER
    "current" "all" "scanStatus = 'UNSCANNED'" 1000 = Ret resp ->
  w_unpack w (content resp) = Ret results ->
  let before := setup_events engine metaDb ++ [search_event self (Ret resp)] in
  let loop := for_each results (process_dataset w self metaDb) (h ++ before) in
  run w self h = (fst loop, before ++ snd loop).
Proof.
  intros Hengine HmetaDb Hsearch Hunpack.
  rewrite (run_setup_Ret _ _ _ _ Hengine HmetaDb). unfold scan_page.
  rewrite (bind_Ret _ _ _ _ _ (query_Ret _ _ _ Hsearch)).
  rewrite (bind_Ret _ _ _ results []) by (unfold unpack; now rewrite Hunpack).
  cbn [fst snd]. rewrite !app_nil_r, <- !app_assoc. reflexivity.
Qed.

(** *** A failed query ends the cycle *)

Lemma dies_with_query_quiet {A} (m : M A) Q :
  emits Q m -> (forall e, Q e = true -> is_failed_query e = false) ->
  dies_with_query m.
Proof.
  intros Hm HQ h Hex. apply existsb_exists in Hex as (e & Hin & He).
  apply (emits_In _ _ _ _ Hm) in Hin. apply HQ in Hin. congruence.
Qed.

Lemma dies_with_query_bind {A B} (m : M A) (f : A -> M B) :
  dies_with_query m -> (forall a, dies_with_query (f a)) ->
  dies_with_query (bind m f).
Proof.
  intros Hm Hf h. unfold bind. specialize (Hm h).
  destruct (m h) as [[a|x] e1]; cbn [fst snd] in *.
  - specialize (Hf a (h ++ e1)).
    destruct (f a (h ++ e1)) as [r e2]. cbn [fst snd] in *.
    rewrite existsb_app. intros Hex. apply orb_prop in Hex as [Hex|Hex].
    + destruct (Hm Hex) as (x & Hx & _). discriminate Hx.
    + auto.
  - intros Hex. destruct (Hm Hex) as (x' & Hx' & Habort).
    injection Hx' as ->. eauto.
Qed.

Lemma query_dies self :
  (forall h' fmt args, w_log w h' WARN fmt args = Ret tt) ->
  dies_with_query (query w self).
Proof.
  intros Hlog h.
  destruct (w_search w h (client self) WATCH_FOLDER "current" "all"
              "scanStatus = 'UNSCANNED'" 1000) as [resp|x] eqn:Hsearch.
  - rewrite (query_Ret _ _ _ Hsearch). cbn. discriminate.
  - destruct x as [error| | | | | |].
    1: { rewrite (query_DcException _ _ _ Hsearch). cbn zeta. cbn [fst snd].
         intros _.
         destruct (search_failed_exit error
                     (h ++ [search_event self (Raise (DcException error))]) Hlog)
           as [-> | ->]; eexists; (split; [reflexivity|]);
           [now left|now right]. }
    all: rewrite (query_Raise _ _ _ Hsearch) by (intros error; discriminate).
    all: cbn; discriminate.
Qed.

Lemma run_dies self :
  (forall h' fmt args, w_log w h' WARN fmt args = Ret tt) ->
  dies_with_query (run w self).
Proof.
  intros Hlog. unfold run.
  apply dies_with_query_bind.
  { apply (dies_with_query_quiet _ is_cycle_start).
    - apply emits_call. now intros r.
    - now intros []. }
  intros engine. apply dies_with_query_bind.
  { apply (dies_with_query_quiet _
             (fun e => match e with EMetadataFitsDb _ _ => true | _ => false end)).
    - apply emits_call. now intros r.
    - now intros []. }
  intros metaDb. apply dies_with_query_bind; [now apply query_dies|].
  intros resp.
  apply (dies_with_query_quiet _ is_dataset_event); [|now intros []].
  apply emits_bind; [apply unpack_emits|]. intros results. apply loop_emits.
Qed.

(** The cycle of a failed query whose error carries a message. *)
Lemma run_query_failure self h engine metaDb error message :
  w_getEngineFromFile w h credFileName = Ret engine ->
  w_MetadataFitsDb w (h ++ [EGetEngineFromFile credFileName (Ret engine)])
    credFileName = Ret metaDb ->
  w_search w (h ++ setup_events engine metaDb) (client self) WATCH_FOLDER
    "current" "all" "scanStatus = 'UNSCANNED'" 1000 =
    Raise (DcException error) ->
  dc_message error = Some message ->
  (forall h' fmt args, w_log w h' WARN fmt args = Ret tt) ->
  run w self h =
    (Raise (SystemExit 1),
     setup_events engine metaDb ++
     search_event self (Raise (DcException error)) ::
     error_report error message).
Proof.
  intros Hengine HmetaDb Hsearch Hmessage Hlog.
  rewrite (run_setup_Ret _ _ _ _ Hengine HmetaDb).
  unfold scan_page.
  rewrite (bind_Raise _ _ _ (SystemExit 1)
             (search_event self (Raise (DcException error)) ::
              error_report error message)).
  - reflexivity.
  - rewrite (query_DcException _ _ _ Hsearch). cbn zeta.
    now rewrite (search_failed_message _ _ _ Hmessage Hlog).
Qed.

(** C6. A cycle that gets past the set-up of its database handles makes
    exactly one search: over the watch folder, for the current version,
    at all sites, with the filter scanStatus = 'UNSCANNED' and at most
    1000 results.  The page it answers is the only one fetched. *)
Theorem one_search_per_cycle self h engine metaDb :
  w_getEngineFromFile w h credFileName = Ret engine ->
  w_MetadataFitsDb w (h ++ [EGetEngineFromFile credFileName (Ret engine)])
    credFileName = Ret metaDb ->
  exists r,
    List.filter is_search (snd (run w self h)) =
      [ESearch (client self) "/LSST" "current" "all"
               "scanStatus = 'UNSCANNED'" 1000 r] /\
    calls is_search (snd (run w self h)) = 1%nat.
Proof.
  intros Hengine HmetaDb.
  rewrite (run_setup_Ret _ _ _ _ Hengine HmetaDb). cbn [snd].
  unfold calls. rewrite List.filter_app, scan_page_search.
  eexists. split; reflexivity.
Qed.


End Cycle.

(** ** The scheduler *)

Section Scheduler.

Variable w : World.

Lemma emits_time_time P :
  (forall t, P (ETime t) = true) -> emits P (time_time w).
Proof. intros HP h. cbn. now rewrite HP. Qed.

Lemma emits_time_sleep P d :
  P (ESleep d) = true -> emits P (time_sleep d).
Proof. intros HP h. cbn. now rewrite HP. Qed.

Lemma sched_enter_eq self delay priority action h :
  let t := w_time w (h ++ [EEnter delay priority action]) in
  sched_enter w self delay priority action h =
    (Ret (set_sched self
            (heappush (sched self)
               {| ev_time := t + delay; ev_priority := priority;
                  ev_action := action |})),
     [EEnter delay priority action; ETime t]).
Proof. reflexivity. Qed.

(** [_run] re-arms the scheduler when, and only when, [run] has
    returned. *)
Lemma _run_Ret self h e1 :
  run w self h = (Ret tt, e1) ->
  let t := w_time w ((h ++ e1) ++ [enter_event]) in
  _run w self h =
    (Ret (set_sched self (heappush (sched self) (rearm t))),
     e1 ++ [enter_event; ETime t]).
Proof.
  intros Hrun. unfold _run.
  rewrite (bind_Ret _ _ _ _ _ Hrun), sched_enter_eq. reflexivity.
Qed.

Lemma _run_Raise self h x e1 :
  run w self h = (Raise x, e1) -> _run w self h = (Raise x, e1).
Proof. intros Hrun. unfold _run. now rewrite (bind_Raise _ _ _ _ _ Hrun). Qed.

Lemma sched_turn_sleep self checked_event q' h :
  w_time w h < ev_time checked_event ->
  sched_turn w self checked_event q' h =
    (Ret self, [ETime (w_time w h); ESleep (ev_time checked_event - w_time w h)]).
Proof.
  intros Hearly. apply Z.ltb_lt in Hearly.
  unfold sched_turn, bind, time_time, time_sleep, ret. cbn zeta.
  now rewrite Hearly.
Qed.

Lemma sched_turn_due self checked_event q' h :
  ev_time checked_event <= w_time w h ->
  let now := w_time w h in
  let cycle := _run w (set_sched self q') (h ++ [ETime now]) in
  sched_turn w self checked_event q' h =
    match fst cycle with
    | Ret self' => (Ret self', ETime now :: snd cycle ++ [ESleep 0])
    | Raise x => (Raise x, ETime now :: snd cycle)
    end.
Proof.
  intros Hdue. apply Z.ltb_ge in Hdue.
  unfold sched_turn, bind, time_time, time_sleep, ret. cbn zeta.
  rewrite Hdue. destruct checked_event as [time priority []]. cbn [perform ev_action].
  destruct (_run w (set_sched self q') (h ++ [ETime (w_time w h)]))
    as [[self'|x] e]; reflexivity.
Qed.

(** *** A failed query ends the process *)

Lemma _run_dies self :
  (forall h' fmt args, w_log w h' WARN fmt args = Ret tt) ->
  dies_with_query (_run w self).
Proof.
  intros Hlog. unfold _run. apply dies_with_query_bind; [now apply run_dies|].
  intros _. apply (dies_with_query_quiet _ (fun e => negb (is_search e))).
  - unfold sched_enter. apply emits_bind; [now intros h|]. intros _.
    apply emits_bind; [now apply emits_time_time|]. intros t. apply emits_ret.
  - now intros [].
Qed.

Lemma sched_turn_dies self checked_event q' :
  (forall h' fmt args, w_log w h' WARN fmt args = Ret tt) ->
  dies_with_query (sched_turn w self checked_event q').
Proof.
  intros Hlog. unfold sched_turn.
  apply dies_with_query_bind.
  { apply (dies_with_query_quiet _ (fun e => negb (is_search e))).
    - now apply emits_time_time.
    - now intros []. }
  intros now. destruct (now <? ev_time checked_event).
  - apply (dies_with_query_quiet _ (fun e => negb (is_search e))).
    + apply emits_bind; [now apply emits_time_sleep|]. intros _. apply emits_ret.
    + now intros [].
  - apply dies_with_query_bind.
    { destruct (ev_action checked_event). now apply _run_dies. }
    intros self'.
    apply (dies_with_query_quiet _ (fun e => negb (is_search e))).
    + apply emits_bind; [now apply emits_time_sleep|]. intros _. apply emits_ret.
    + now intros [].
Qed.

Lemma sched_run_dies fuel :
  (forall h' fmt args, w_log w h' WARN fmt args = Ret tt) ->
  forall self h,
    existsb is_failed_query (snd (sched_run w fuel self h)) = true ->
    exists x, fst (sched_run w fuel self h) = Some (Raise x) /\ query_abort x.
Proof.
  intros Hlog. induction fuel as [|fuel IH]; intros self h; cbn [sched_run].
  - discriminate.
  - destruct (sched self) as [|checked_event q']; [discriminate|].
    pose proof (sched_turn_dies self checked_event q' Hlog h) as Hturn.
    destruct (sched_turn w self checked_event q' h) as [[self'|x] e1].
    + specialize (IH self' (h ++ e1)).
      destruct (sched_run w fuel self' (h ++ e1)) as [r e2].
      cbn [fst snd] in *. rewrite existsb_app.
      intros Hex. apply orb_prop in Hex as [Hex|Hex]; [|auto].
      destruct (Hturn Hex) as (x & Hx & _). discriminate Hx.
    + cbn [fst snd] in *. intros Hex.
      destruct (Hturn Hex) as (x' & Hx' & Habort). injection Hx' as ->. eauto.
Qed.

Lemma main_setup_dies :
  (forall h' fmt args, w_log w h' WARN fmt args = Ret tt) ->
  dies_with_query (main_setup w).
Proof.
  intros Hlog. unfold main_setup, __init__.
  apply dies_with_query_bind.
  { apply (dies_with_query_quiet _ (fun e => negb (is_search e)));
      [now intros h|now intros []]. }
  intros _. apply dies_with_query_bind.
  { apply (dies_with_query_quiet _ (fun e => negb (is_search e)));
      [apply emits_call; now intros r|now intros []]. }
  intros dataCatCfg. apply dies_with_query_bind.
  { apply (dies_with_query_quiet _ (fun e => negb (is_search e)));
      [apply emits_call; now intros r|now intros []]. }
  intros url. apply dies_with_query_bind.
  { apply (dies_with_query_quiet _ (fun e => negb (is_search e)));
      [apply emits_call; now intros r|now intros []]. }
  intros c. now apply _run_dies.
Qed.

Lemma main_dies fuel h :
  (forall h' fmt args, w_log w h' WARN fmt args = Ret tt) ->
  existsb is_failed_query (snd (main w fuel h)) = true ->
  exit_status (fst (main w fuel h)) = Some 1.
Proof.
  intros Hlog. unfold main, start.
  pose proof (main_setup_dies Hlog h) as Hsetup.
  destruct (main_setup w h) as [[c|x] e1]; cbn [fst snd] in *.
  - pose proof (sched_run_dies fuel Hlog c (h ++ e1)) as Hrun.
    destruct (sched_run w fuel c (h ++ e1)) as [[[c'|x]|] e2];
      cbn [fst snd] in *; rewrite existsb_app; intros Hex;
      apply orb_prop in Hex as [Hex|Hex];
      try (destruct (Hsetup Hex) as (x' & Hx' & _); discriminate Hx');
      destruct (Hrun Hex) as (x' & Hx' & Habort); try discriminate Hx'.
    injection Hx' as ->. now destruct Habort as [-> | ->].
  - intros Hex. destruct (Hsetup Hex) as (x' & Hx' & Habort).
    injection Hx' as ->. now destruct Habort as [-> | ->].
Qed.

End Scheduler.

(** ** Cycles follow one another *)

Lemma cycle_state_app open e1 e2 :
  cycle_state open (e1 ++ e2) =
    match cycle_state open e1 with
    | Some open' => cycle_state open' e2
    | None => None
    end.
Proof.
  revert open. induction e1 as [|e e1 IH]; intros open; [reflexivity|].
  destruct e; cbn [app cycle_state]; try apply IH.
  - destruct open; [reflexivity|apply IH].
  - destruct (open && (delay =? RERUN_SECONDS)); [apply IH|reflexivity].
Qed.

Lemma cycle_state_inner open evs :
  forallb is_inner_event evs = true -> cycle_state open evs = Some open.
Proof.
  induction evs as [|e evs IH]; [reflexivity|].
  cbn [forallb]. intros Hall. apply andb_prop in Hall as [He Hall].
  destruct e; try discriminate He; cbn [cycle_state]; auto.
Qed.

Section Cycles.

Variable w : World.

(** A cycle opens with its first call and does not close by itself. *)
Lemma run_cycle_state self h :
  cycle_state false (snd (run w self h)) = Some true /\
  calls is_cycle_start (snd (run w self h)) = 1%nat.
Proof.
  remember (run w self h) as cycle eqn:Hcycle.
  unfold run in Hcycle. unfold bind at 1 in Hcycle. unfold call at 1 in Hcycle.
  cbn zeta in Hcycle.
  destruct (w_getEngineFromFile w h credFileName) as [engine|x];
    [|subst cycle; split; reflexivity].
  match type of Hcycle with
  | context [bind ?m ?f ?h'] =>
      assert (emits is_inner_event (bind m f)) as Hrest;
      [|specialize (Hrest h'); destruct (bind m f h') as [r e2]]
  end.
  { apply emits_bind; [apply emits_call; now intros r|]. intros metaDb.
    eapply emits_weaken; [|apply (scan_page_emits w self metaDb)]. now intros []. }
  subst cycle. cbn [fst snd app cycle_state] in *. split.
  - now apply cycle_state_inner.
  - unfold calls. cbn [List.filter is_cycle_start length]. f_equal.
    apply (calls_none _ is_inner_event); [now intros []|exact Hrest].
Qed.

(** [_run] closes the cycle exactly when [run] has returned. *)
Lemma _run_cycle_state self h :
  cycle_state false (snd (_run w self h)) =
    Some (match fst (_run w self h) with Ret _ => false | Raise _ => true end) /\
  calls is_cycle_start (snd (_run w self h)) = 1%nat.
Proof.
  destruct (run_cycle_state self h) as [Hstate Hcalls].
  destruct (run w self h) as [[[]|x] e1] eqn:Hrun; cbn [snd] in *.
  - rewrite (_run_Ret _ _ _ _ Hrun). cbn [fst snd]. split.
    + now rewrite cycle_state_app, Hstate.
    + now rewrite calls_app, Hcalls.
  - rewrite (_run_Raise _ _ _ _ _ Hrun). cbn [fst snd]. now split.
Qed.

(** A turn of the scheduler starts and ends between cycles, unless the
    cycle it ran has raised. *)
Lemma sched_turn_cycle_state self checked_event q' h :
  cycle_state false (snd (sched_turn w self checked_event q' h)) =
    Some (match fst (sched_turn w self checked_event q' h) with
          | Ret _ => false
          | Raise _ => true
          end).
Proof.
  destruct (Z.lt_ge_cases (w_time w h) (ev_time checked_event)) as [Hearly|Hdue].
  - now rewrite sched_turn_sleep.
  - rewrite sched_turn_due by exact Hdue. cbn zeta.
    destruct (_run_cycle_state (set_sched self q') (h ++ [ETime (w_time w h)]))
      as [Hstate _].
    destruct (_run w (set_sched self q') (h ++ [ETime (w_time w h)]))
      as [[self'|x] e]; cbn [fst snd cycle_state] in *.
    + now rewrite cycle_state_app, Hstate.
    + exact Hstate.
Qed.

Lemma sched_run_cycle_state fuel self h :
  cycle_state false (snd (sched_run w fuel self h)) =
    Some (match fst (sched_run w fuel self h) with
          | Some (Raise _) => true
          | _ => false
          end).
Proof.
  revert self h. induction fuel as [|fuel IH]; intros self h; cbn [sched_run].
  - reflexivity.
  - destruct (sched self) as [|checked_event q']; [reflexivity|].
    pose proof (sched_turn_cycle_state self checked_event q' h) as Hturn.
    destruct (sched_turn w self checked_event q' h) as [[self'|x] e1];
      cbn [fst snd] in *.
    + specialize (IH self' (h ++ e1)).
      destruct (sched_run w fuel self' (h ++ e1)) as [r e2]. cbn [fst snd] in *.
      now rewrite cycle_state_app, Hturn.
    + exact Hturn.
Qed.

(** The constructor, once the client is built, is [_run]. *)
Lemma Crawler_init_eq dataCatCfg h url c :
  w_getRestUrl w h dataCatCfg = Ret url ->
  w_Client w (h ++ [EGetRestUrl dataCatCfg (Ret url)]) url = Ret c ->
  let self := {| _dataCatCfg := dataCatCfg; client := c; sched := [] |} in
  let init := [EGetRestUrl dataCatCfg (Ret url); EClient url (Ret c)] in
  __init__ w dataCatCfg h =
    (fst (_run w self (h ++ init)), init ++ snd (_run w self (h ++ init))).
Proof.
  intros Hurl Hclient. unfold __init__.
  rewrite (bind_Ret _ _ h url [EGetRestUrl dataCatCfg (Ret url)])
    by (unfold call; now rewrite Hurl).
  rewrite (bind_Ret _ _ _ c [EClient url (Ret c)])
    by (unfold call; now rewrite Hclient).
  cbn [fst snd]. rewrite <- !app_assoc. reflexivity.
Qed.

Lemma Crawler_init_Ret dataCatCfg h self evs :
  __init__ w dataCatCfg h = (Ret self, evs) ->
  exists url c,
    w_getRestUrl w h dataCatCfg = Ret url /\
    w_Client w (h ++ [EGetRestUrl dataCatCfg (Ret url)]) url = Ret c.
Proof.
  unfold __init__, bind, call.
  destruct (w_getRestUrl w h dataCatCfg) as [url|x]; [|discriminate].
  destruct (w_Client w (h ++ [EGetRestUrl dataCatCfg (Ret url)]) url)
    as [c|x] eqn:Hclient; [|discriminate].
  intros _. exists url, c. split; [reflexivity|exact Hclient].
Qed.

End Cycles.

(** ** The scheduler never runs dry *)

Section Forever.

Variable w : World.

(** Every cycle returns. *)
Hypothesis cycles_return : forall self h, fst (run w self h) = Ret tt.

Lemma _run_rearms self h :
  exists t,
    _run w self h =
      (Ret (set_sched self (heappush (sched self) (rearm t))),
       snd (run w self h) ++ [enter_event; ETime t]).
Proof.
  pose proof (cycles_return self h) as Hret.
  destruct (run w self h) as [r e1] eqn:Hrun. cbn [fst snd] in *. subst r.
  eexists. now rewrite (_run_Ret _ _ _ _ Hrun).
Qed.

(** A turn whose entry is due runs one cycle and leaves one entry. *)
Lemma sched_turn_due_rearms self checked_event h :
  ev_time checked_event <= w_time w h ->
  exists self' e1 pending,
    sched_turn w self checked_event [] h = (Ret self', e1) /\
    sched self' = [pending] /\
    calls is_cycle_start e1 = 1%nat.
Proof.
  intros Hdue. rewrite sched_turn_due by exact Hdue. cbn zeta.
  destruct (_run_cycle_state w (set_sched self []) (h ++ [ETime (w_time w h)]))
    as [_ Hcalls].
  destruct (_run_rearms (set_sched self []) (h ++ [ETime (w_time w h)]))
    as [t Hrun].
  rewrite Hrun in *. cbn [fst snd] in *.
  eexists _, _, (rearm t). split; [reflexivity|]. split; [reflexivity|].
  change (ETime (w_time w h) :: ?e ++ [ESleep 0])
    with ([ETime (w_time w h)] ++ e ++ [ESleep 0]).
  now rewrite (calls_app _ [ETime _]), (calls_app _ _ [ESleep 0]), Hcalls.
Qed.

(** With one entry pending, [scheduler.run] outlasts any amount of fuel. *)
Lemma sched_run_forever fuel :
  forall self h pending,
    sched self = [pending] -> fst (sched_run w fuel self h) = None.
Proof.
  induction fuel as [|fuel IH]; intros self h pending Hsched; [reflexivity|].
  cbn [sched_run]. rewrite Hsched.
  destruct (Z.lt_ge_cases (w_time w h) (ev_time pending)) as [Hearly|Hdue].
  - rewrite sched_turn_sleep by exact Hearly.
    specialize (IH self (h ++ [ETime (w_time w h);
                               ESleep (ev_time pending - w_time w h)])
                  pending Hsched).
    now destruct (sched_run w fuel self _).
  - destruct (sched_turn_due_rearms self pending h Hdue)
      as (self' & e1 & pending' & -> & Hsched' & _).
    specialize (IH self' (h ++ e1) pending' Hsched').
    now destruct (sched_run w fuel self' _).
Qed.

(** On a clock that advances, two turns are enough for one more cycle. *)
Lemma sched_run_progress :
  clock_advances w ->
  forall n fuel self h pending,
    sched self = [pending] -> (2 * n <= fuel)%nat ->
    (n <= calls is_cycle_start (snd (sched_run w fuel self h)))%nat.
Proof.
  intros Hclock. induction n as [|n IH]; intros fuel self h pending Hsched Hfuel;
    [lia|].
  destruct fuel as [|[|fuel]]; [lia|lia|].
  assert (forall self1 h1 pending1,
             sched self1 = [pending1] -> ev_time pending1 <= w_time w h1 ->
             forall fuel1, (2 * n <= fuel1)%nat ->
             (S n <= calls is_cycle_start
                       (snd (sched_run w (S fuel1) self1 h1)))%nat) as Hdue_turn.
  { intros self1 h1 pending1 Hsched1 Hdue fuel1 Hfuel1.
    cbn [sched_run]. rewrite Hsched1.
    destruct (sched_turn_due_rearms self1 pending1 h1 Hdue)
      as (self' & e1 & pending' & -> & Hsched' & Hcalls).
    specialize (IH fuel1 self' (h1 ++ e1) pending' Hsched' Hfuel1).
    destruct (sched_run w fuel1 self' (h1 ++ e1)) as [r e2]. cbn [snd] in *.
    rewrite calls_app, Hcalls. lia. }
  destruct (Z.lt_ge_cases (w_time w h) (ev_time pending)) as [Hearly|Hdue].
  - remember (S fuel) as fuel1 eqn:Hfuel1.
    cbn [sched_run]. rewrite Hsched.
    rewrite sched_turn_sleep by exact Hearly.
    set (h1 := h ++ [ETime (w_time w h); ESleep (ev_time pending - w_time w h)]).
    assert (ev_time pending <= w_time w h1) as Hdue.
    { pose proof (Hclock h (ev_time pending - w_time w h)). subst h1. lia. }
    subst fuel1.
    pose proof (Hdue_turn self h1 pending Hsched Hdue fuel ltac:(lia)) as Hn.
    destruct (sched_run w (S fuel) self h1) as [r e2]. cbn [snd] in *.
    rewrite calls_app. lia.
  - apply (Hdue_turn self h pending Hsched Hdue (S fuel)). lia.
Qed.

End Forever.

(** ** What a turn of the scheduler leaves behind *)

Lemma _run_returned w self h self' e :
  _run w self h = (Ret self', e) ->
  exists t, self' = set_sched self (heappush (sched self) (rearm t)).
Proof.
  destruct (run w self h) as [[[]|x] e1] eqn:Hrun.
  - rewrite (_run_Ret _ _ _ _ Hrun). cbn zeta. intros Heq.
    injection Heq as <- _. eauto.
  - rewrite (_run_Raise _ _ _ _ _ Hrun). discriminate.
Qed.

Lemma sched_turn_returned w self pending q' h self' e :
  sched_turn w self pending q' h = (Ret self', e) ->
  self' = self \/ exists t, self' = set_sched self (heappush q' (rearm t)).
Proof.
  destruct (Z.lt_ge_cases (w_time w h) (ev_time pending)) as [Hearly|Hdue].
  - rewrite (sched_turn_sleep _ _ _ _ _ Hearly). intros Heq.
    injection Heq as <- _. now left.
  - rewrite (sched_turn_due _ _ _ _ _ Hdue). cbn zeta.
    destruct (_run w (set_sched self q') (h ++ [ETime (w_time w h)]))
      as [[self''|x] e1] eqn:Hrun; cbn [fst snd]; [|discriminate].
    intros Heq. injection Heq as <- _.
    destruct (_run_returned _ _ _ _ _ Hrun) as [t ->]. right. now exists t.
Qed.

Lemma sched_run_not_Ret w fuel :
  forall self h pending,
    sched self = [pending] ->
    forall self', fst (sched_run w fuel self h) <> Some (Ret self').
Proof.
  induction fuel as [|fuel IH]; intros self h pending Hsched self';
    [discriminate|].
  cbn [sched_run]. rewrite Hsched.
  destruct (sched_turn w self pending [] h) as [[self1|x] e1] eqn:Hturn;
    [|discriminate].
  destruct (sched_turn_returned _ _ _ _ _ _ _ Hturn) as [->|[t ->]].
  - specialize (IH self (h ++ e1) pending Hsched self').
    now destruct (sched_run w fuel self (h ++ e1)).
  - specialize (IH (set_sched self (heappush [] (rearm t))) (h ++ e1)
                  (rearm t) eq_refl self').
    now destruct (sched_run w fuel _ (h ++ e1)).
Qed.

Lemma init_one_entry w dataCatCfg h self evs :
  __init__ w dataCatCfg h = (Ret self, evs) ->
  exists t, sched self = [rearm t].
Proof.
  intros Hinit.
  destruct (Crawler_init_Ret w _ _ _ _ Hinit) as (url & c & Hurl & Hclient).
  rewrite (Crawler_init_eq w _ _ _ _ Hurl Hclient) in Hinit. cbn zeta in Hinit.
  match type of Hinit with
  | context [_run w ?s ?h'] => destruct (_run w s h') as [r e] eqn:Hrun
  end.
  cbn [fst snd] in Hinit. injection Hinit as -> _.
  destruct (_run_returned _ _ _ _ _ Hrun) as [t ->]. now exists t.
Qed.

(** A turn whose entry is due begins by reading the clock and then makes
    every call of the cycle, run on the queue without that entry. *)
Lemma sched_run_due_runs_cycle w fuel self pending q' h :
  sched self = pending :: q' ->
  ev_time pending <= w_time w h ->
  exists rest,
    snd (sched_run w (S fuel) self h) =
      ETime (w_time w h) ::
      snd (run w (set_sched self q') (h ++ [ETime (w_time w h)])) ++ rest.
Proof.
  intros Hsched Hdue. cbn [sched_run]. rewrite Hsched.
  rewrite (sched_turn_due _ _ _ _ _ Hdue). cbn zeta.
  destruct (run w (set_sched self q') (h ++ [ETime (w_time w h)]))
    as [[[]|x] e1] eqn:Hrun.
  - rewrite (_run_Ret _ _ _ _ Hrun). cbn zeta. cbn [fst snd].
    match goal with
    | |- context [sched_run w fuel ?s ?h'] =>
        destruct (sched_run w fuel s h') as [r e2]
    end.
    cbn [snd app]. eexists. repeat rewrite <- (app_assoc e1). reflexivity.
  - rewrite (_run_Raise _ _ _ _ _ Hrun). cbn [fst snd].
    exists []. now rewrite app_nil_r.
Qed.

(** ** The claims about the scheduler *)

(** C10. Building a [Crawler] already runs a whole cycle: once the REST
    client is built, the constructor makes every call of [run] and, if
    [run] returns, puts the next cycle into the queue, [RERUN_SECONDS]
    after the clock reading it takes then.  [start] has no cycle of its
    own: on an empty queue it returns at once, without a single call.
    On the crawler the constructor has built it never returns; while the
    constructor's entry is not due it sleeps for what is left of the
    delay; once the entry is due it reads the clock and makes every call
    of the cycle that entry stands for, on the queue without it; and in
    the trace of constructor and [start] together every cycle begins
    after the re-arming of the cycle before. *)
Theorem constructor_runs_first_cycle w dataCatCfg h url c :
  w_getRestUrl w h dataCatCfg = Ret url ->
  w_Client w (h ++ [EGetRestUrl dataCatCfg (Ret url)]) url = Ret c ->
  let self := {| _dataCatCfg := dataCatCfg; client := c; sched := [] |} in
  let init := [EGetRestUrl dataCatCfg (Ret url); EClient url (Ret c)] in
  let cycle := run w self (h ++ init) in
  let t := w_time w (((h ++ init) ++ snd cycle) ++ [enter_event]) in
  __init__ w dataCatCfg h =
    match fst cycle with
    | Ret _ => (Ret (set_sched self [rearm t]),
                init ++ snd cycle ++ [enter_event; ETime t])
    | Raise x => (Raise x, init ++ snd cycle)
    end /\
  calls is_cycle_start (snd (__init__ w dataCatCfg h)) = 1%nat /\
  (forall fuel self' h',
     sched self' = [] -> start w (S fuel) self' h' = (Some (Ret self'), [])) /\
  (fst cycle = Ret tt ->
   let built := set_sched self [rearm t] in
   let evs := init ++ snd cycle ++ [enter_event; ETime t] in
   (forall fuel h' self', fst (start w fuel built h') <> Some (Ret self')) /\
   (forall h', w_time w h' < t + RERUN_SECONDS ->
      start w 1 built h' =
        (None, [ETime (w_time w h');
                ESleep (t + RERUN_SECONDS - w_time w h')])) /\
   (forall fuel h', t + RERUN_SECONDS <= w_time w h' ->
      exists rest,
        snd (start w (S fuel) built h') =
          ETime (w_time w h') ::
          snd (run w (set_sched built []) (h' ++ [ETime (w_time w h')])) ++
          rest) /\
   (forall fuel,
      exists open,
        cycle_state false (evs ++ snd (start w fuel built (h ++ evs))) =
          Some open)).
Proof.
  intros Hurl Hclient self init cycle t.
  rewrite (Crawler_init_eq w _ _ _ _ Hurl Hclient). fold self init.
  split; [|split; [|split]].
  - subst t cycle.
    destruct (run w self (h ++ init)) as [[[]|x] e1] eqn:Hrun; cbn [fst snd].
    + now rewrite (_run_Ret _ _ _ _ Hrun).
    + now rewrite (_run_Raise _ _ _ _ _ Hrun).
  - cbn [snd].
    destruct (_run_cycle_state w self (h ++ init)) as [_ Hcalls].
    rewrite (calls_app is_cycle_start init), Hcalls. reflexivity.
  - intros fuel self' h' Hempty. unfold start. cbn [sched_run].
    now rewrite Hempty.
  - intros Hret built evs.
    assert (sched built = [rearm t]) as Hsched by reflexivity.
    split; [|split; [|split]].
    + intros fuel h' self'. unfold start.
      exact (sched_run_not_Ret w fuel built h' _ Hsched self').
    + intros h' Hearly. unfold start. cbn [sched_run]. rewrite Hsched.
      rewrite (sched_turn_sleep w built (rearm t) [] h' Hearly). reflexivity.
    + intros fuel h' Hdue. unfold start.
      exact (sched_run_due_runs_cycle w fuel built (rearm t) [] h' Hsched Hdue).
    + intros fuel. unfold start.
      destruct (run_cycle_state w self (h ++ init)) as [Hstate _].
      fold cycle in Hstate.
      assert (cycle_state false evs = Some false) as Hevs.
      { subst evs. rewrite cycle_state_app.
        rewrite (cycle_state_inner false init eq_refl).
        now rewrite cycle_state_app, Hstate. }
      rewrite cycle_state_app, Hevs, sched_run_cycle_state. eauto.
Qed.

(** C9. Let every cycle return and let the clock advance while the
    process sleeps.  Then the constructor has run one cycle and has
    re-armed the scheduler as its last step, [RERUN_SECONDS] after the
    clock reading it took; as long as that time has not come, a turn of
    the scheduler only sleeps for what is left of the delay; [start]
    never returns; every two turns of the scheduler bring at least one
    more cycle; and in the trace of the whole process a cycle only ever
    begins after the cycle before has returned and re-armed the
    scheduler with the delay [RERUN_SECONDS]. *)
Theorem scheduler_rearms_forever w dataCatCfg h self evs :
  (forall self' h', fst (run w self' h') = Ret tt) ->
  clock_advances w ->
  __init__ w dataCatCfg h = (Ret self, evs) ->
  calls is_cycle_start evs = 1%nat /\
  (exists before t,
     evs = before ++ [enter_event; ETime t] /\ sched self = [rearm t]) /\
  (forall h' pending, sched self = [pending] -> w_time w h' < ev_time pending ->
     start w 1 self h' =
       (None, [ETime (w_time w h'); ESleep (ev_time pending - w_time w h')])) /\
  (forall fuel, fst (start w fuel self (h ++ evs)) = None) /\
  (forall n fuel, (2 * n <= fuel)%nat ->
     (n <= calls is_cycle_start (snd (start w fuel self (h ++ evs))))%nat) /\
  (forall fuel,
     cycle_state false (evs ++ snd (start w fuel self (h ++ evs))) = Some false).
Proof.
  intros Hcycles Hclock Hinit.
  destruct (Crawler_init_Ret w _ _ _ _ Hinit) as (url & c & Hurl & Hclient).
  rewrite (Crawler_init_eq w _ _ _ _ Hurl Hclient) in Hinit. cbn zeta in Hinit.
  set (self0 := {| _dataCatCfg := dataCatCfg; client := c; sched := [] |}) in *.
  set (init := [EGetRestUrl dataCatCfg (Ret url); EClient url (Ret c)]) in *.
  destruct (_run_cycle_state w self0 (h ++ init)) as [Hstate Hcalls].
  destruct (_run_rearms w Hcycles self0 (h ++ init)) as [t Hrun].
  rewrite Hrun in *. cbn [fst snd] in *.
  injection Hinit as <- <-.
  assert (sched (set_sched self0 [rearm t]) = [rearm t]) as Hsched
    by reflexivity.
  split; [exact Hcalls|].
  split; [exists (init ++ snd (run w self0 (h ++ init))), t;
          split; [reflexivity|exact Hsched]|].
  split.
  { intros h' pending Hpending Hearly. unfold start. cbn [sched_run].
    rewrite Hpending, (sched_turn_sleep w _ _ _ _ Hearly). reflexivity. }
  split; [intros fuel; exact (sched_run_forever w Hcycles fuel _ _ _ Hsched)|].
  split; [intros n fuel Hfuel;
          exact (sched_run_progress w Hcycles Hclock n fuel _ _ _ Hsched Hfuel)|].
  intros fuel. unfold start.
  rewrite cycle_state_app. cbn [cycle_state]. rewrite Hstate.
  rewrite sched_run_cycle_state.
  now rewrite (sched_run_forever w Hcycles fuel _ _ _ Hsched).
Qed.

(** ** The failed query *)

(** C5, as the code has it.  When the query of a cycle raises
    [DcException] with a message on it, the cycle logs the message, then
    the type and the cause if the error has them, touches no dataset and
    ends in [sys.exit(1)]; [_run] does not re-arm the scheduler; and a
    process whose trace shows a failed query has exited with status 1. *)
Theorem query_failure_is_fatal w self h engine metaDb error message :
  w_getEngineFromFile w h credFileName = Ret engine ->
  w_MetadataFitsDb w (h ++ [EGetEngineFromFile credFileName (Ret engine)])
    credFileName = Ret metaDb ->
  w_search w (h ++ setup_events engine metaDb) (client self) WATCH_FOLDER
    "current" "all" "scanStatus = 'UNSCANNED'" 1000 =
    Raise (DcException error) ->
  dc_message error = Some message ->
  (forall h' fmt args, w_log w h' WARN fmt args = Ret tt) ->
  let evs :=
    setup_events engine metaDb ++
    search_event self (Raise (DcException error)) ::
    error_report error message in
  run w self h = (Raise (SystemExit 1), evs) /\
  calls is_scan_event evs = 0%nat /\
  calls is_phase1_patch evs = 0%nat /\
  calls is_insertFile evs = 0%nat /\
  _run w self h = (Raise (SystemExit 1), evs) /\
  forall fuel h0,
    existsb is_failed_query (snd (main w fuel h0)) = true ->
    exit_status (fst (main w fuel h0)) = Some 1.
Proof.
  intros Hengine HmetaDb Hsearch Hmessage Hlog evs.
  pose proof (run_query_failure w _ _ _ _ _ _ Hengine HmetaDb Hsearch Hmessage Hlog)
    as Hrun.
  split; [exact Hrun|].
  assert (calls is_scan_event evs = 0%nat /\ calls is_phase1_patch evs = 0%nat /\
          calls is_insertFile evs = 0%nat) as (Hscan & Hpatch & Hinsert).
  { subst evs. unfold error_report.
    destruct (dc_type error), (dc_cause error); repeat split; reflexivity. }
  split; [exact Hscan|]. split; [exact Hpatch|]. split; [exact Hinsert|].
  split; [exact (_run_Raise w _ _ _ _ Hrun)|].
  intros fuel h0. now apply main_dies.
Qed.

(** C5 as the spec has it fails for the errors that are not a
    [DcException] with a message.  A [DcException] without a message is
    reported by its raw content alone: its type and its cause are not
    logged although it has both.  An exception of another kind is not
    caught by the [except] clause: the cycle raises it and logs nothing. *)
Lemma query_failure_not_always_reported :
  let w1 := sample_world (Raise (DcException raw_error)) [ds_a] patch_up in
  let w2 :=
    sample_world (Raise (OtherError "ConnectionError")) [ds_a] patch_up in
  dc_message raw_error = None /\
  dc_type raw_error = Some "ServerError" /\
  dc_cause raw_error = Some "timeout" /\
  List.filter is_log (snd (run w1 sample_crawler [])) =
    [ELog WARN "502 Bad Gateway" [] (Ret tt)] /\
  fst (run w2 sample_crawler []) = Raise (OtherError "ConnectionError") /\
  List.filter is_log (snd (run w2 sample_crawler [])) = [].
Proof. vm_compute. repeat split; reflexivity. Qed.

(** ** The statements on the sample worlds *)

Lemma slept_app h1 h2 : slept (h1 ++ h2) = slept h1 + slept h2.
Proof.
  induction h1 as [|e h1 IH]; [reflexivity|].
  destruct e; cbn [app slept]; lia.
Qed.

Lemma sample_clock_advances search page patch :
  clock_advances (sample_world search page patch).
Proof.
  intros h d. cbn [w_time sample_world]. rewrite slept_app. cbn [slept]. lia.
Qed.

Lemma one_search_per_cycle_witness :
  let w := sample_world search_up [ds_a; ds_b] patch_up in
  List.filter is_search (snd (run w sample_crawler [])) =
    [ESearch sample_client "/LSST" "current" "all" "scanStatus = 'UNSCANNED'"
             1000 search_up] /\
  calls is_search (snd (run w sample_crawler [])) = 1%nat.
Proof.
  intros w.
  destruct (one_search_per_cycle w sample_crawler []
              {| url_username := Some "crawler" |} sample_metaDb
              eq_refl eq_refl) as (r & Hfilter & Hcalls).
  split; [|exact Hcalls].
  rewrite Hfilter. f_equal.
  assert (List.filter is_search (snd (run w sample_crawler [])) =
          [ESearch sample_client "/LSST" "current" "all"
                   "scanStatus = 'UNSCANNED'" 1000 search_up]) as Heq
    by (vm_compute; reflexivity).
  rewrite Heq in Hfilter. injection Hfilter as <-. reflexivity.
Defined.

Lemma query_failure_is_fatal_witness :
  let w := sample_world search_down [ds_a] patch_up in
  run w sample_crawler [] =
    (Raise (SystemExit 1),
     setup_events {| url_username := Some "crawler" |} sample_metaDb ++
     [search_event sample_crawler search_down;
      ELog WARN ("Error occurred:" ++ newline ++ "Message: %s")
           [AStr "Service unavailable"] (Ret tt);
      ELog WARN "Type: %s" [AStr "ServerError"] (Ret tt)]) /\
  exit_status (fst (main w 3 [])) = Some 1.
Proof.
  intros w.
  destruct (query_failure_is_fatal w sample_crawler []
              {| url_username := Some "crawler" |} sample_metaDb
              sample_error "Service unavailable"
              eq_refl eq_refl eq_refl eq_refl (fun _ _ _ => eq_refl))
    as (Hrun & _ & _ & _ & _ & Hexit).
  split; [exact Hrun|]. apply Hexit. vm_compute. reflexivity.
Defined.

Lemma constructor_runs_first_cycle_witness :
  let w := sample_world search_up [ds_a] patch_up in
  let built := set_sched sample_crawler [rearm 0] in
  let evs := snd (__init__ w sample_cfg []) in
  fst (__init__ w sample_cfg []) = Ret built /\
  calls is_cycle_start evs = 1%nat /\
  calls is_phase2_patch evs = 1%nat /\
  start w 1 sample_crawler [] = (Some (Ret sample_crawler), []) /\
  start w 1 built evs = (None, [ETime 0; ESleep 5]) /\
  fst (start w 6 built evs) <> Some (Ret built) /\
  (exists rest,
     snd (start w 3 built (evs ++ [ESleep 5])) =
       ETime 5 ::
       snd (run w (set_sched built []) ((evs ++ [ESleep 5]) ++ [ETime 5])) ++
       rest).
Proof.
  intros w built evs.
  destruct (constructor_runs_first_cycle w sample_cfg [] "http://datacat/r"
              sample_client eq_refl eq_refl)
    as (Hinit & Hcalls & Hstart & Hbuilt).
  destruct (Hbuilt eq_refl) as (Hblocks & Hsleeps & Hruns & _).
  split; [rewrite Hinit; vm_compute; reflexivity|].
  split; [exact Hcalls|].
  split; [vm_compute; reflexivity|].
  split; [now apply Hstart|].
  split; [exact (Hsleeps evs ltac:(vm_compute; reflexivity))|].
  split; [exact (Hblocks 6%nat evs built)|].
  exact (Hruns 2%nat (evs ++ [ESleep 5]) ltac:(vm_compute; discriminate)).
Defined.

Lemma scheduler_rearms_forever_witness :
  let w := sample_world search_up [ds_a] patch_up in
  let self := set_sched sample_crawler [rearm 0] in
  let evs := snd (__init__ w sample_cfg []) in
  __init__ w sample_cfg [] = (Ret self, evs) /\
  fst (start w 9 self evs) = None /\
  (4 <= calls is_cycle_start (snd (start w 9 self evs)))%nat /\
  cycle_state false (evs ++ snd (start w 9 self evs)) = Some false.
Proof.
  intros w self evs.
  assert (__init__ w sample_cfg [] = (Ret self, evs)) as Hinit
    by (vm_compute; reflexivity).
  destruct (scheduler_rearms_forever w sample_cfg [] self evs
              (fun _ _ => eq_refl) (sample_clock_advances _ _ _) Hinit)
    as (_ & _ & _ & Hforever & Hprogress & Hstate).
  split; [exact Hinit|].
  split; [exact (Hforever 9%nat)|].
  split; [apply (Hprogress 4%nat 9%nat); lia|exact (Hstate 9%nat)].
Defined.

(** * Further properties of the module *)

(** ** The location of the watch site *)

(** X1. The location a dataset is scanned at is the first one of the watch
    site, in the order of the catalog's list; there is none exactly when
    no location of the dataset is at the watch site. *)
Theorem find_check_location_first (ls : list Location) :
  match find_check_location ls with
  | Some location =>
      exists before after,
        ls = before ++ location :: after /\
        site location = WATCH_SITE /\
        Forall (fun l => site l <> WATCH_SITE) before
  | None => Forall (fun l => site l <> WATCH_SITE) ls
  end.
Proof.
  induction ls as [|l ls IH]; cbn [find_check_location]; [constructor|].
  destruct (String.eqb (site l) WATCH_SITE) eqn:Hsite.
  - apply String.eqb_eq in Hsite. exists [], ls. repeat split; [exact Hsite|constructor].
  - apply String.eqb_neq in Hsite.
    destruct (find_check_location ls) as [location|].
    + destruct IH as (before & after & -> & Hloc & Hbefore).
      exists (l :: before), after. repeat split; [exact Hloc|now constructor].
    + now constructor.
Qed.

(** ** The output of [cksum] *)

Lemma split_space_nonempty s : split_space s <> [].
Proof.
  destruct (split_space_cons s) as (token & tokens & ->). discriminate.
Qed.

(** Splitting at the spaces loses nothing: joining the tokens with single
    spaces gives the text back, and no token holds a space. *)
Theorem split_space_join s :
  join_space (split_space s) = s /\
  Forall (fun token => contains_space token = false) (split_space s).
Proof.
  induction s as [|c s [IHjoin IHtokens]]; cbn [split_space].
  - split; [reflexivity|repeat constructor].
  - destruct (Ascii.eqb c " ") eqn:Hc.
    + apply Ascii.eqb_eq in Hc. subst c. split.
      * destruct (split_space_cons s) as (token & tokens & Hs).
        rewrite Hs in *. cbn [join_space]. cbn [join_space] in IHjoin.
        now rewrite IHjoin.
      * now constructor.
    + destruct (split_space_cons s) as (token & tokens & Hs).
      rewrite Hs in *. split.
      * destruct tokens as [|token' tokens]; cbn [join_space] in *;
          cbn [String.append]; now rewrite <- IHjoin.
      * inversion IHtokens as [|? ? Htoken Htokens]; subst.
        constructor; [|exact Htokens]. cbn [contains_space].
        now rewrite Hc, Htoken.
Qed.

Lemma split_space_token token :
  contains_space token = false -> split_space token = [token].
Proof.
  induction token as [|c token IH]; [reflexivity|].
  cbn [contains_space split_space]. intros Hc.
  apply orb_false_elim in Hc as [Hc Htoken].
  now rewrite Hc, (IH Htoken).
Qed.

Lemma split_space_app token rest :
  contains_space token = false ->
  split_space (token ++ " " ++ rest) = token :: split_space rest.
Proof.
  induction token as [|c token IH]; [reflexivity|].
  cbn [contains_space]. intros Hc.
  apply orb_false_elim in Hc as [Hc Htoken].
  change (String c token ++ " " ++ rest)%string
    with (String c (token ++ " " ++ rest)).
  cbn [split_space]. now rewrite Hc, (IH Htoken).
Qed.

(** The other way round: a non-empty list of tokens without spaces comes
    back from splitting its join. *)
Theorem join_space_split (tokens : list string) :
  tokens <> [] ->
  Forall (fun token => contains_space token = false) tokens ->
  split_space (join_space tokens) = tokens.
Proof.
  intros Hnonempty Htokens.
  induction Htokens as [|token tokens Htoken Htokens IH]; [congruence|].
  destruct tokens as [|token' tokens]; cbn [join_space].
  - now apply split_space_token.
  - rewrite (split_space_app _ _ Htoken). f_equal. now apply IH.
Qed.

Lemma join_space_split_witness :
  split_space (join_space ["4038471504"; "100"; "/data/a.fits"]) =
    ["4038471504"; "100"; "/data/a.fits"].
Proof.
  apply join_space_split; [discriminate|].
  repeat constructor.
Defined.

(** X2. [get_cksum] raises only what starting the child process raises.
    Otherwise, whatever the exit code, it returns the part of the output
    that precedes the first space: a token without a space that the rest
    of the output follows after a space, if anything follows at all. *)
Theorem get_cksum_outcomes w file_path h :
  let answer := w_subprocess w h ["cksum"; file_path] in
  match answer with
  | Ret (ec, stdout) =>
      exists cksum tokens,
        get_cksum w file_path h =
          (Ret cksum, [ESubprocess ["cksum"; file_path] answer]) /\
        stdout = join_space (cksum :: tokens) /\
        contains_space cksum = false
  | Raise x =>
      get_cksum w file_path h =
        (Raise x, [ESubprocess ["cksum"; file_path] answer])
  end.
Proof.
  cbn zeta. unfold get_cksum, bind, call, ret.
  destruct (w_subprocess w h ["cksum"; file_path]) as [[ec stdout]|x];
    [|reflexivity].
  destruct (split_space_join stdout) as [Hjoin Htokens].
  destruct (split_space_cons stdout) as (cksum & tokens & Hsplit).
  rewrite Hsplit in *. exists cksum, tokens.
  inversion Htokens; subst.
  split; [now destruct (negb (ec =? 0))|]. now split.
Qed.

(** ** One pass of the loop body *)

(** Whatever is not an event of [scan] was emitted by the [try]
    statement, entered after a [scan] that returned. *)
Lemma process_dataset_In_guarded w self metaDb dataset h e :
  In e (snd (process_dataset w self metaDb dataset h)) ->
  is_scan_event e = false ->
  exists file_path scan_result e1,
    scan w dataset h = (Ret (file_path, scan_result), e1) /\
    In e (snd (guarded w self metaDb dataset file_path scan_result (h ++ e1))) /\
    process_dataset w self metaDb dataset h =
      (fst (guarded w self metaDb dataset file_path scan_result (h ++ e1)),
       e1 ++ snd (guarded w self metaDb dataset file_path scan_result (h ++ e1))).
Proof.
  intros Hin Hkind.
  pose proof (scan_emits w dataset h) as He1.
  destruct (scan w dataset h) as [[[file_path scan_result]|exc] e1] eqn:Hscan;
    cbn [snd] in He1; rewrite forallb_forall in He1.
  - rewrite (process_dataset_scan_Ret _ _ _ _ _ _ _ _ Hscan) in *.
    cbn [snd] in Hin. apply in_app_iff in Hin as [Hin|Hin].
    + apply He1 in Hin. congruence.
    + now exists file_path, scan_result, e1.
  - rewrite (process_dataset_scan_Raise _ _ _ _ _ _ _ Hscan) in Hin.
    cbn [snd] in Hin. apply He1 in Hin. congruence.
Qed.

Lemma scan_calls w dataset h :
  calls is_phase1_patch (snd (scan w dataset h)) = 0%nat /\
  calls is_insertFile (snd (scan w dataset h)) = 0%nat /\
  calls is_phase2_patch (snd (scan w dataset h)) = 0%nat /\
  calls is_warning (snd (scan w dataset h)) = 0%nat.
Proof.
  pose proof (scan_emits w dataset h) as He1.
  repeat split; apply (calls_none _ is_scan_event); try exact He1;
    now intros [].
Qed.

Lemma guarded_phase2 w self metaDb dataset file_path scan_result h
    c p body v r :
  let evs := snd (guarded w self metaDb dataset file_path scan_result h) in
  In (EPatch c p body v None r) evs ->
  exists resp fileId,
    In (EPatch (client self) (path dataset) scan_result (versionId dataset)
          (Some WATCH_SITE) (Ret resp)) evs /\
    In (EInsertFile metaDb file_path (Ret fileId)) evs /\
    c = client self /\ p = path dataset /\ v = versionId dataset /\
    body = <["versionMetadata" := VDict (<["fileId" := VInt fileId]> ∅)]> ∅ /\
    calls is_phase1_patch evs = 1%nat /\
    calls is_insertFile evs = 1%nat /\
    calls is_phase2_patch evs = 1%nat.
Proof.
  unfold_guarded. split_cases.
  all: intros H; absurd_In H.
  all: inversion H; subst; clear H.
  all: eexists _, _; cbn [snd app In].
  all: repeat (split; [first [reflexivity | auto 10]|]).
  all: reflexivity.
Qed.

(** X4. The second patch of a dataset is made only after its first patch and
    the insert into the metadata database have both returned.  It goes
    to the same dataset and version, without the site keyword, and its
    body is the one entry [versionMetadata] holding the one entry
    [fileId], the identifier the insert returned.  A pass makes each of
    the three calls once at most. *)
Theorem phase2_patch_follows_insert w self metaDb dataset h c p body v r :
  let evs := snd (process_dataset w self metaDb dataset h) in
  In (EPatch c p body v None r) evs ->
  exists file_path scan_result resp fileId,
    In (EPatch (client self) (path dataset) scan_result (versionId dataset)
          (Some WATCH_SITE) (Ret resp)) evs /\
    In (EInsertFile metaDb file_path (Ret fileId)) evs /\
    c = client self /\ p = path dataset /\ v = versionId dataset /\
    body = <["versionMetadata" := VDict (<["fileId" := VInt fileId]> ∅)]> ∅ /\
    calls is_phase1_patch evs = 1%nat /\
    calls is_insertFile evs = 1%nat /\
    calls is_phase2_patch evs = 1%nat.
Proof.
  intros evs Hin. subst evs.
  destruct (process_dataset_In_guarded _ _ _ _ _ _ Hin eq_refl)
    as (file_path & scan_result & e1 & Hscan & Hin' & ->).
  destruct (scan_calls w dataset h) as (Hc1 & Hc2 & Hc3 & _).
  rewrite Hscan in Hc1, Hc2, Hc3. cbn [snd] in *.
  apply guarded_phase2 in Hin'
    as (resp & fileId & Hp1 & Hins & -> & -> & -> & -> & Hn1 & Hn2 & Hn3).
  exists file_path, scan_result, resp, fileId.
  rewrite !calls_app, Hc1, Hc2, Hc3, Hn1, Hn2, Hn3.
  repeat split; try reflexivity; apply in_app_iff; now right.
Qed.

Lemma phase2_patch_follows_insert_witness :
  let w := sample_world search_up [ds_a] patch_phase2_down in
  let evs := snd (process_dataset w sample_crawler sample_metaDb ds_a []) in
  In (EInsertFile sample_metaDb "/data/a.fits" (Ret 7)) evs /\
  calls is_phase1_patch evs = 1%nat /\
  calls is_insertFile evs = 1%nat /\
  calls is_phase2_patch evs = 1%nat.
Proof.
  intros w evs. subst evs w.
  assert (In (EPatch sample_client "/LSST/a.fits"
                (<["versionMetadata" := VDict (<["fileId" := VInt 7]> ∅)]> ∅)
                1 None (Raise (DcException sample_error)))
             (snd (process_dataset
                     (sample_world search_up [ds_a] patch_phase2_down)
                     sample_crawler sample_metaDb ds_a []))) as Hin.
  { vm_compute. do 7 right. left. reflexivity. }
  destruct (phase2_patch_follows_insert _ _ _ _ _ _ _ _ _ _ Hin)
    as (file_path & scan_result & resp & fileId & _ & _ & _ & _ & _ & _ &
        Hn1 & Hn2 & Hn3).
  split; [vm_compute; auto 10|]. now repeat split.
Defined.

Lemma guarded_insert_raised w self metaDb dataset file_path scan_result h
    db fp x :
  In (EInsertFile db fp (Raise x))
     (snd (guarded w self metaDb dataset file_path scan_result h)) ->
  (forall error, x <> DcException error) ->
  exists resp,
    guarded w self metaDb dataset file_path scan_result h =
      (Raise x,
       [ELog DEBUG "patch_resp %s" [AStr file_path] (Ret tt);
        EPatch (client self) (path dataset) scan_result (versionId dataset)
               (Some WATCH_SITE) (Ret resp);
        ELog DEBUG "Inserting %s" [AStr file_path] (Ret tt);
        EInsertFile metaDb file_path (Raise x)]).
Proof.
  unfold_guarded. split_cases.
  all: intros H Hx; absurd_In H.
  all: inversion H; subst; clear H.
  all: try (exfalso; eapply Hx; reflexivity).
  all: repeat match goal with u : unit |- _ => destruct u end.
  all: eexists; reflexivity.
Qed.

(** X6. An exception of the insert into the metadata database that is not a
    [DcException] is not caught: it leaves the pass right after the
    insert, with no warning and no second patch, although the first
    patch has already marked the dataset as scanned. *)
Theorem insertFile_failure_escapes w self metaDb dataset h db fp x :
  let evs := snd (process_dataset w self metaDb dataset h) in
  In (EInsertFile db fp (Raise x)) evs ->
  (forall error, x <> DcException error) ->
  fst (process_dataset w self metaDb dataset h) = Raise x /\
  last evs = Some (EInsertFile db fp (Raise x)) /\
  (exists scan_result resp,
     In (EPatch (client self) (path dataset) scan_result (versionId dataset)
           (Some WATCH_SITE) (Ret resp)) evs /\
     scan_result !! "scanStatus" = Some (VStr "OK")) /\
  calls is_warning evs = 0%nat /\
  calls is_phase2_patch evs = 0%nat.
Proof.
  intros evs Hin Hx. subst evs.
  destruct (process_dataset_In_guarded _ _ _ _ _ _ Hin eq_refl)
    as (file_path & scan_result & e1 & Hscan & Hin' & ->).
  destruct (scan_calls w dataset h) as (_ & _ & Hc3 & Hc4).
  rewrite Hscan in Hc3, Hc4. cbn [fst snd] in *.
  pose proof Hin' as Hin''.
  apply guarded_insert_raised in Hin' as [resp Hguarded]; [|exact Hx].
  rewrite Hguarded in *. cbn [fst snd] in *.
  assert (db = metaDb /\ fp = file_path) as [-> ->].
  { absurd_In Hin''. now inversion Hin''. }
  split; [reflexivity|]. split; [now rewrite last_app|]. split.
  - exists scan_result, resp. split; [apply in_app_iff; right; cbn; auto|].
    apply scan_Ret in Hscan
      as (location & stat & ec & stdout & cksum & tokens & now &
          _ & _ & _ & _ & _ & ->).
    now simplify_map_eq.
  - now rewrite !calls_app, Hc3, Hc4.
Qed.

Lemma insertFile_failure_escapes_witness :
  let w := insert_down (sample_world search_up [ds_a] patch_up) in
  let evs := snd (process_dataset w sample_crawler sample_metaDb ds_a []) in
  fst (process_dataset w sample_crawler sample_metaDb ds_a []) =
    Raise (OtherError "OperationalError") /\
  calls is_phase1_patch evs = 1%nat /\
  calls is_warning evs = 0%nat /\
  calls is_phase2_patch evs = 0%nat.
Proof.
  intros w evs. subst evs w.
  assert (In (EInsertFile sample_metaDb "/data/a.fits"
                (Raise (OtherError "OperationalError")))
             (snd (process_dataset
                     (insert_down (sample_world search_up [ds_a] patch_up))
                     sample_crawler sample_metaDb ds_a []))) as Hin.
  { vm_compute. do 6 right. left. reflexivity. }
  destruct (insertFile_failure_escapes _ _ _ _ _ _ _ _ Hin
              ltac:(intros error; discriminate))
    as (Hfst & _ & _ & Hwarn & Hp2).
  split; [exact Hfst|]. split; [vm_compute; reflexivity|]. now split.
Defined.

Lemma guarded_clean w self metaDb dataset file_path scan_result h :
  fst (guarded w self metaDb dataset file_path scan_result h) = Ret tt ->
  calls is_warning
    (snd (guarded w self metaDb dataset file_path scan_result h)) = 0%nat ->
  exists resp1 fileId resp2,
    snd (guarded w self metaDb dataset file_path scan_result h) =
      [ELog DEBUG "patch_resp %s" [AStr file_path] (Ret tt);
       EPatch (client self) (path dataset) scan_result (versionId dataset)
              (Some WATCH_SITE) (Ret resp1);
       ELog DEBUG "Inserting %s" [AStr file_path] (Ret tt);
       EInsertFile metaDb file_path (Ret fileId);
       EPatch (client self) (path dataset)
              (<["versionMetadata" := VDict (<["fileId" := VInt fileId]> ∅)]> ∅)
              (versionId dataset) None (Ret resp2);
       ELog INFO "Inserted %d %s" [AInt fileId; AStr file_path] (Ret tt)].
Proof.
  unfold_guarded. split_cases.
  all: cbn [fst snd app calls List.filter is_warning length].
  all: intros Hret Hwarn; try discriminate Hret; try discriminate Hwarn.
  all: repeat match goal with u : unit |- _ => destruct u end.
  all: try (rewrite Hret).
  all: eexists _, _, _; reflexivity.
Qed.

(** X5. A pass that returns without having logged a warning has made exactly
    nine calls, in this order: the stat, [cksum], the clock, a debug
    line, the first patch, a debug line, the insert, the second patch and
    the final info line; every one of them returned. *)
Theorem clean_pass w self metaDb dataset h :
  let evs := snd (process_dataset w self metaDb dataset h) in
  fst (process_dataset w self metaDb dataset h) = Ret tt ->
  calls is_warning evs = 0%nat ->
  exists file_path scan_result stat ec stdout now resp1 fileId resp2,
    evs =
      [EStat file_path (Ret stat);
       ESubprocess ["cksum"; file_path] (Ret (ec, stdout));
       EUtcnow now;
       ELog DEBUG "patch_resp %s" [AStr file_path] (Ret tt);
       EPatch (client self) (path dataset) scan_result (versionId dataset)
              (Some WATCH_SITE) (Ret resp1);
       ELog DEBUG "Inserting %s" [AStr file_path] (Ret tt);
       EInsertFile metaDb file_path (Ret fileId);
       EPatch (client self) (path dataset)
              (<["versionMetadata" := VDict (<["fileId" := VInt fileId]> ∅)]> ∅)
              (versionId dataset) None (Ret resp2);
       ELog INFO "Inserted %d %s" [AInt fileId; AStr file_path] (Ret tt)].
Proof.
  intros evs Hret Hwarn. subst evs.
  destruct (scan w dataset h) as [[[file_path scan_result]|exc] e1] eqn:Hscan.
  - rewrite (process_dataset_scan_Ret _ _ _ _ _ _ _ _ Hscan) in *.
    cbn [fst snd] in *.
    destruct (scan_calls w dataset h) as (_ & _ & _ & Hc4).
    rewrite Hscan in Hc4. cbn [snd] in Hc4.
    rewrite calls_app, Hc4 in Hwarn.
    destruct (guarded_clean _ _ _ _ _ _ _ Hret Hwarn)
      as (resp1 & fileId & resp2 & ->).
    apply scan_Ret in Hscan
      as (location & stat & ec & stdout & cksum & tokens & now &
          _ & _ & -> & _ & _ & _).
    now exists file_path, scan_result, stat, ec, stdout, now, resp1, fileId, resp2.
  - rewrite (process_dataset_scan_Raise _ _ _ _ _ _ _ Hscan) in Hret.
    discriminate Hret.
Qed.

Lemma clean_pass_witness :
  let w := sample_world search_up [ds_a] patch_up in
  let evs := snd (process_dataset w sample_crawler sample_metaDb ds_a []) in
  length evs = 9%nat /\
  last evs =
    Some (ELog INFO "Inserted %d %s" [AInt 7; AStr "/data/a.fits"] (Ret tt)).
Proof.
  intros w evs. subst evs w.
  destruct (clean_pass (sample_world search_up [ds_a] patch_up)
              sample_crawler sample_metaDb ds_a [] eq_refl eq_refl)
    as (file_path & scan_result & stat & ec & stdout & now & resp1 & fileId &
        resp2 & Hevs).
  split; [now rewrite Hevs|]. vm_compute. reflexivity.
Defined.

Lemma scan_failure w dataset h fp x :
  In (EStat fp (Raise x)) (snd (scan w dataset h)) \/
  In (ESubprocess ["cksum"; fp] (Raise x)) (snd (scan w dataset h)) ->
  fst (scan w dataset h) = Raise x /\
  exists location,
    find_check_location (locations dataset) = Some location /\
    fp = resource location.
Proof.
  unfold_scan. split_cases; cbn [fst snd app].
  all: intros [H|H]; absurd_In H.
  all: inversion H; subst; clear H.
  all: split; [reflexivity|eexists; split; reflexivity].
Qed.

(** X7. An error of [os.stat], or of starting [cksum], on the file of a
    dataset leaves the pass at once: the pass raises that error, having
    sent nothing to the catalog, inserted nothing and logged nothing. *)
Theorem scan_failure_escapes w self metaDb dataset h fp x :
  let evs := snd (process_dataset w self metaDb dataset h) in
  In (EStat fp (Raise x)) evs \/ In (ESubprocess ["cksum"; fp] (Raise x)) evs ->
  fst (process_dataset w self metaDb dataset h) = Raise x /\
  (exists location,
     find_check_location (locations dataset) = Some location /\
     fp = resource location) /\
  forallb is_scan_event evs = true.
Proof.
  intros evs Hin. subst evs.
  assert (In (EStat fp (Raise x)) (snd (scan w dataset h)) \/
          In (ESubprocess ["cksum"; fp] (Raise x)) (snd (scan w dataset h)))
    as Hscan.
  { pose proof (scan_emits w dataset h) as He1.
    destruct (scan w dataset h) as [[[file_path scan_result]|exc] e1] eqn:Hs.
    - rewrite (process_dataset_scan_Ret _ _ _ _ _ _ _ _ Hs) in Hin.
      cbn [snd] in *.
      pose proof (guarded_emits w self metaDb dataset file_path scan_result
                    (h ++ e1)) as He2.
      assert (forall e, In e (snd (guarded w self metaDb dataset file_path
                                     scan_result (h ++ e1))) ->
                        is_scan_event e = false) as Hnone.
      { unfold_guarded. split_cases; cbn [snd app]; intros e He;
          absurd_In He; now subst e. }
      destruct Hin as [Hin|Hin]; apply in_app_iff in Hin as [Hin|Hin];
        auto; now apply Hnone in Hin.
    - rewrite (process_dataset_scan_Raise _ _ _ _ _ _ _ Hs) in Hin.
      exact Hin. }
  destruct (scan_failure _ _ _ _ _ Hscan) as (Hfst & Hloc).
  destruct (scan w dataset h) as [[[file_path scan_result]|exc] e1] eqn:Hs;
    [discriminate Hfst|].
  cbn [fst] in Hfst. injection Hfst as ->.
  rewrite (process_dataset_scan_Raise _ _ _ _ _ _ _ Hs). cbn [fst snd].
  split; [reflexivity|]. split; [exact Hloc|].
  pose proof (scan_emits w dataset h) as He1. now rewrite Hs in He1.
Qed.

Lemma scan_failure_escapes_witness :
  let w := sample_world search_up [ds_missing] patch_up in
  process_dataset w sample_crawler sample_metaDb ds_missing [] =
    (Raise (OSError "[Errno 2] No such file or directory"),
     [EStat "/data/missing.fits"
            (Raise (OSError "[Errno 2] No such file or directory"))]).
Proof.
  intros w. subst w.
  assert (In (EStat "/data/missing.fits"
                (Raise (OSError "[Errno 2] No such file or directory")))
             (snd (process_dataset
                     (sample_world search_up [ds_missing] patch_up)
                     sample_crawler sample_metaDb ds_missing []))) as Hin.
  { vm_compute. left. reflexivity. }
  destruct (scan_failure_escapes _ _ _ _ _ _ _ (or_introl Hin))
    as (Hfst & _ & _).
  rewrite (surjective_pairing (process_dataset _ _ _ _ _)), Hfst.
  f_equal.
Defined.

(** *** Each step only after the one before *)

Lemma scan_step_counts w dataset h :
  let e1 := snd (scan w dataset h) in
  (calls is_subprocess e1 <= calls is_stat e1 <= 1)%nat /\
  (forall scanned, fst (scan w dataset h) = Ret scanned ->
     calls is_subprocess e1 = 1%nat /\ calls is_stat e1 = 1%nat).
Proof.
  unfold_scan. split_cases; cbn [fst snd app calls List.filter is_stat
                                  is_subprocess length].
  all: split; [lia|intros scanned Hret; try discriminate Hret; now split].
Qed.

Lemma guarded_step_counts w self metaDb dataset file_path scan_result h :
  let e2 := snd (guarded w self metaDb dataset file_path scan_result h) in
  (calls is_phase2_patch e2 <= calls is_insertFile e2 <=
   calls is_phase1_patch e2)%nat /\
  (calls is_phase1_patch e2 <= 1)%nat /\
  calls is_stat e2 = 0%nat /\ calls is_subprocess e2 = 0%nat.
Proof.
  unfold_guarded. split_cases.
  all: cbn [snd app calls List.filter is_stat is_subprocess is_phase1_patch
            is_phase2_patch is_insertFile length].
  all: repeat split; lia.
Qed.

Lemma pass_step_counts w self metaDb dataset h :
  let evs := snd (process_dataset w self metaDb dataset h) in
  (calls is_phase2_patch evs <= calls is_insertFile evs)%nat /\
  (calls is_insertFile evs <= calls is_phase1_patch evs)%nat /\
  (calls is_phase1_patch evs <= calls is_subprocess evs)%nat /\
  (calls is_subprocess evs <= calls is_stat evs)%nat /\
  (calls is_stat evs <= 1)%nat.
Proof.
  cbn zeta.
  destruct (scan_step_counts w dataset h) as [Hle Hret].
  destruct (scan_calls w dataset h) as (Hc1 & Hc2 & Hc3 & _).
  destruct (scan w dataset h) as [[[file_path scan_result]|exc] e1] eqn:Hscan;
    cbn [fst snd] in *.
  - rewrite (process_dataset_scan_Ret _ _ _ _ _ _ _ _ Hscan). cbn [snd].
    destruct (Hret _ eq_refl) as [Hsub Hstat].
    destruct (guarded_step_counts w self metaDb dataset file_path scan_result
                (h ++ e1)) as (Hchain & Hone & Hs & Hp).
    rewrite !calls_app. lia.
  - rewrite (process_dataset_scan_Raise _ _ _ _ _ _ _ Hscan). cbn [snd]. lia.
Qed.

(** X8. In the trace of the loop over a page, however it ends, there are no
    more second patches than inserts, no more inserts than first
    patches, no more first patches than runs of [cksum], no more of
    these than stats, and no more stats than datasets in the page. *)
Theorem loop_step_counts w self metaDb (results : list Dataset) h :
  let evs := snd (for_each results (process_dataset w self metaDb) h) in
  (calls is_phase2_patch evs <= calls is_insertFile evs)%nat /\
  (calls is_insertFile evs <= calls is_phase1_patch evs)%nat /\
  (calls is_phase1_patch evs <= calls is_subprocess evs)%nat /\
  (calls is_subprocess evs <= calls is_stat evs)%nat /\
  (calls is_stat evs <= length results)%nat.
Proof.
  cbn zeta. revert h.
  induction results as [|dataset results IH]; intros h.
  - cbn. lia.
  - cbn [for_each length]. unfold bind.
    pose proof (pass_step_counts w self metaDb dataset h) as Hpass.
    cbn zeta in Hpass.
    destruct (process_dataset w self metaDb dataset h) as [[[]|exc] e1];
      cbn [snd] in *.
    + specialize (IH (h ++ e1)).
      destruct (for_each results (process_dataset w self metaDb) (h ++ e1))
        as [r e2]. cbn [snd] in *.
      rewrite !calls_app. lia.
    + lia.
Qed.

(** ** The loop over the page *)

(** The datasets of a page are processed in the order of the page, each
    pass entered with the history the passes before it have left.  The
    first pass that raises ends the loop: the loop raises the same
    exception and the datasets after it are not touched. *)
Lemma loop_in_page_order w self metaDb (first rest : list Dataset) h :
  let body := process_dataset w self metaDb in
  let head := for_each first body h in
  for_each (first ++ rest) body h =
    match fst head with
    | Ret _ =>
        (fst (for_each rest body (h ++ snd head)),
         snd head ++ snd (for_each rest body (h ++ snd head)))
    | Raise x => (Raise x, snd head)
    end.
Proof.
  cbn zeta. revert h. induction first as [|dataset first IH]; intros h.
  - cbn [for_each app ret fst snd]. rewrite app_nil_r.
    now destruct (for_each rest (process_dataset w self metaDb) h).
  - cbn [for_each app]. unfold bind.
    destruct (process_dataset w self metaDb dataset h) as [[[]|exc] e1];
      [|reflexivity].
    rewrite (IH (h ++ e1)).
    destruct (for_each first (process_dataset w self metaDb) (h ++ e1))
      as [[[]|exc] e2]; cbn [fst snd]; [|reflexivity].
    rewrite <- !app_assoc.
    now destruct (for_each rest (process_dataset w self metaDb) _).
Qed.

(** ** Other outcomes of the query *)

(** X10. A [DcException] of the query that carries no message is reported by
    its raw content alone, also when it has a type and a cause; then the
    cycle exits with status 1.  If it has no content either, reading it
    raises [AttributeError] in place of the exit. *)
Theorem query_failure_without_message w self h error :
  w_search w h (client self) WATCH_FOLDER "current" "all"
    "scanStatus = 'UNSCANNED'" 1000 = Raise (DcException error) ->
  dc_message error = None ->
  (forall h' fmt args, w_log w h' WARN fmt args = Ret tt) ->
  query w self h =
    match dc_content error with
    | Some body =>
        (Raise (SystemExit 1),
         [search_event self (Raise (DcException error));
          ELog WARN body [] (Ret tt)])
    | None =>
        (Raise (AttributeError "content"),
         [search_event self (Raise (DcException error))])
    end.
Proof.
  intros Hsearch Hmessage Hlog.
  rewrite (query_DcException _ _ _ _ Hsearch). cbn zeta.
  unfold search_failed, bind, log, call, raise. rewrite Hmessage.
  destruct (dc_content error); [rewrite Hlog|]; reflexivity.
Qed.

Lemma query_failure_without_message_witness :
  let w := sample_world (Raise (DcException raw_error)) [ds_a] patch_up in
  query w sample_crawler [] =
    (Raise (SystemExit 1),
     [search_event sample_crawler (Raise (DcException raw_error));
      ELog WARN "502 Bad Gateway" [] (Ret tt)]).
Proof.
  exact (query_failure_without_message
           (sample_world (Raise (DcException raw_error)) [ds_a] patch_up)
           sample_crawler [] raw_error eq_refl eq_refl (fun _ _ _ => eq_refl)).
Defined.

(** X11. An exception of the query that is not a [DcException] is neither
    caught nor logged: the cycle raises it right after the search. *)
Theorem query_error_escapes w self h engine metaDb x :
  w_getEngineFromFile w h credFileName = Ret engine ->
  w_MetadataFitsDb w (h ++ [EGetEngineFromFile credFileName (Ret engine)])
    credFileName = Ret metaDb ->
  w_search w (h ++ setup_events engine metaDb) (client self) WATCH_FOLDER
    "current" "all" "scanStatus = 'UNSCANNED'" 1000 = Raise x ->
  (forall error, x <> DcException error) ->
  run w self h =
    (Raise x, setup_events engine metaDb ++ [search_event self (Raise x)]).
Proof.
  intros Hengine HmetaDb Hsearch Hx.
  rewrite (run_setup_Ret _ _ _ _ _ Hengine HmetaDb). unfold scan_page.
  now rewrite (bind_Raise _ _ _ _ _ (query_Raise _ _ _ _ Hsearch Hx)).
Qed.

Lemma query_error_escapes_witness :
  let w := sample_world (Raise (OtherError "ConnectionError")) [ds_a] patch_up in
  run w sample_crawler [] =
    (Raise (OtherError "ConnectionError"),
     setup_events {| url_username := Some "crawler" |} sample_metaDb ++
     [search_event sample_crawler (Raise (OtherError "ConnectionError"))]).
Proof.
  exact (query_error_escapes
           (sample_world (Raise (OtherError "ConnectionError")) [ds_a] patch_up)
           sample_crawler [] _ _ _ eq_refl eq_refl eq_refl
           ltac:(intros error; discriminate)).
Defined.

(** X12. A cycle that finds nothing to scan makes five calls and no more: the
    two set-up calls, the search, and the re-arming with its reading of
    the clock. *)
Theorem idle_cycle w self h engine metaDb resp :
  w_getEngineFromFile w h credFileName = Ret engine ->
  w_MetadataFitsDb w (h ++ [EGetEngineFromFile credFileName (Ret engine)])
    credFileName = Ret metaDb ->
  w_search w (h ++ setup_events engine metaDb) (client self) WATCH_FOLDER
    "current" "all" "scanStatus = 'UNSCANNED'" 1000 = Ret resp ->
  w_unpack w (content resp) = Ret [] ->
  exists t,
    _run w self h =
      (Ret (set_sched self (heappush (sched self) (rearm t))),
       setup_events engine metaDb ++
       [search_event self (Ret resp); enter_event; ETime t]).
Proof.
  intros Hengine HmetaDb Hsearch Hunpack.
  pose proof (run_page _ _ _ _ _ _ _ Hengine HmetaDb Hsearch Hunpack) as Hrun.
  cbn [for_each ret fst snd] in Hrun. rewrite app_nil_r in Hrun.
  eexists. rewrite (_run_Ret _ _ _ _ Hrun). cbn zeta.
  now rewrite <- app_assoc.
Qed.

Lemma idle_cycle_witness :
  exists t,
    _run idle_world sample_crawler [] =
      (Ret (set_sched sample_crawler (heappush [] (rearm t))),
       setup_events {| url_username := Some "crawler" |} sample_metaDb ++
       [search_event sample_crawler search_up; enter_event; ETime t]).
Proof.
  exact (idle_cycle idle_world sample_crawler []
           {| url_username := Some "crawler" |} sample_metaDb
           {| content := "page" |} eq_refl eq_refl eq_refl eq_refl).
Defined.

(** ** The queue of the scheduler *)

(** X15. Between two turns of the scheduler the queue holds exactly one
    entry: a turn entered with one entry either leaves it in place or
    replaces it by the entry of the cycle it ran, and it never changes
    the client or the configuration of the crawler. *)
Theorem turn_keeps_one_entry w self pending h self' e :
  sched self = [pending] ->
  sched_turn w self pending [] h = (Ret self', e) ->
  (exists pending', sched self' = [pending']) /\
  client self' = client self /\
  _dataCatCfg self' = _dataCatCfg self.
Proof.
  intros Hsched Hturn.
  destruct (sched_turn_returned _ _ _ _ _ _ _ Hturn) as [->|[t ->]].
  - repeat split. now exists pending.
  - repeat split. now exists (rearm t).
Qed.

Lemma turn_keeps_one_entry_witness :
  let self := set_sched sample_crawler [rearm 0] in
  let self' := set_sched sample_crawler [rearm 5] in
  fst (sched_turn idle_world self (rearm 0) [] [ESleep 5]) = Ret self' /\
  (exists pending', sched self' = [pending']) /\
  client self' = client self /\
  _dataCatCfg self' = _dataCatCfg self.
Proof.
  intros self self'.
  assert (sched_turn idle_world self (rearm 0) [] [ESleep 5] =
          (Ret self', snd (sched_turn idle_world self (rearm 0) [] [ESleep 5])))
    as Hturn by (vm_compute; reflexivity).
  split; [now rewrite Hturn|].
  exact (turn_keeps_one_entry idle_world self (rearm 0) [ESleep 5] self' _
           eq_refl Hturn).
Defined.

(** X17. [main] never returns: whatever the collaborators answer and however
    long it runs, the process is either still in the loop of the
    scheduler or has ended by an exception. *)
Theorem main_never_returns w fuel h :
  fst (main w fuel h) <> Some (Ret tt).
Proof.
  unfold main, start.
  destruct (main_setup w h) as [[c|x] e1] eqn:Hsetup; [|discriminate].
  assert (exists t, sched c = [rearm t]) as [t Hsched].
  { unfold main_setup, bind, call in Hsetup. cbn zeta in Hsetup.
    destruct (w_DataCatCfg w _) as [dataCatCfg|x]; [|discriminate].
    match type of Hsetup with
    | context [__init__ w ?cfg ?h'] =>
        destruct (__init__ w cfg h') as [[c'|x] e] eqn:Hinit;
        [|discriminate]
    end.
    injection Hsetup as <- _. exact (init_one_entry _ _ _ _ _ Hinit). }
  pose proof (sched_run_not_Ret w fuel c (h ++ e1) _ Hsched) as Hrun.
  destruct (sched_run w fuel c (h ++ e1)) as [[[c'|x]|] e2];
    cbn [fst] in *; try discriminate.
  now destruct (Hrun c').
Qed.

(** X16. An exception that leaves a cycle leaves the scheduler too: when the
    entry of the queue is due and the cycle it starts raises, [start]
    raises the same exception with however much fuel, the entry is
    consumed, and nothing is put back into the queue. *)
Theorem cycle_exception_ends_start w self pending q' h x :
  sched self = pending :: q' ->
  ev_time pending <= w_time w h ->
  fst (run w (set_sched self q') (h ++ [ETime (w_time w h)])) = Raise x ->
  forall fuel,
    start w (S fuel) self h =
      (Some (Raise x),
       ETime (w_time w h) ::
       snd (run w (set_sched self q') (h ++ [ETime (w_time w h)]))) /\
    calls is_enter (snd (start w (S fuel) self h)) = 0%nat.
Proof.
  intros Hsched Hdue Hrun fuel.
  destruct (run w (set_sched self q') (h ++ [ETime (w_time w h)]))
    as [r e1] eqn:Hcycle.
  cbn [fst snd] in *. subst r.
  assert (start w (S fuel) self h = (Some (Raise x), ETime (w_time w h) :: e1))
    as Hstart.
  { unfold start. cbn [sched_run]. rewrite Hsched.
    rewrite (sched_turn_due _ _ _ _ _ Hdue). cbn zeta.
    now rewrite (_run_Raise _ _ _ _ _ Hcycle). }
  split; [exact Hstart|]. rewrite Hstart. cbn [snd].
  pose proof (run_emits w (set_sched self q') (h ++ [ETime (w_time w h)]))
    as Hemits.
  rewrite Hcycle in Hemits. cbn [snd] in Hemits.
  change (ETime (w_time w h) :: e1) with ([ETime (w_time w h)] ++ e1).
  rewrite calls_app. cbn.
  apply (calls_none _ is_cycle_event); [now intros []|exact Hemits].
Qed.

Lemma cycle_exception_ends_start_witness :
  let w := sample_world search_up [ds_elsewhere; ds_a] patch_up in
  let self := set_sched sample_crawler [rearm 0] in
  fst (start w 4 self [ESleep 5]) =
    Some (Raise (AttributeError "'NoneType' object has no attribute 'resource'")) /\
  calls is_enter (snd (start w 4 self [ESleep 5])) = 0%nat /\
  calls is_stat (snd (start w 4 self [ESleep 5])) = 0%nat.
Proof.
  intros w self.
  destruct (cycle_exception_ends_start w self (rearm 0) [] [ESleep 5]
              (AttributeError "'NoneType' object has no attribute 'resource'")
              eq_refl ltac:(vm_compute; discriminate) eq_refl 3%nat)
    as [Hstart Henter].
  split; [now rewrite Hstart|]. split; [exact Henter|].
  vm_compute. reflexivity.
Defined.

(** ** The timestamp determines the second *)

Lemma digit_inj a b :
  0 <= a <= 9 -> 0 <= b <= 9 -> digit a = digit b -> a = b.
Proof.
  intros Ha Hb Heq. unfold digit in Heq.
  apply (f_equal nat_of_ascii) in Heq.
  rewrite !nat_ascii_embedding in Heq by lia. lia.
Qed.

Lemma zfill2_inj a b :
  0 <= a <= 99 -> 0 <= b <= 99 -> zfill2 a = zfill2 b -> a = b.
Proof.
  intros Ha Hb Heq. unfold zfill2 in Heq. injection Heq as Hhi Hlo.
  apply digit_inj in Hhi; auto using div10_digit.
  apply digit_inj in Hlo; auto using mod10_digit.
  rewrite (Z.div_mod a 10), (Z.div_mod b 10) by lia. lia.
Qed.

Lemma zfill4_inj a b :
  0 <= a <= 9999 -> 0 <= b <= 9999 -> zfill4 a = zfill4 b -> a = b.
Proof.
  intros Ha Hb Heq. unfold zfill4 in Heq. injection Heq as H3 H2 H1 H0.
  apply digit_inj in H3; auto using div1000_digit.
  apply digit_inj in H2; auto using mod10_digit.
  apply digit_inj in H1; auto using mod10_digit.
  apply digit_inj in H0; auto using mod10_digit.
  assert (forall n, n = 10 * (n / 10) + n mod 10) as Hdm
    by (intros n; apply Z.div_mod; lia).
  assert (forall n, 0 <= n -> n / 100 = n / 10 / 10) as H100
    by (intros n Hn; rewrite Z.div_div by lia; reflexivity).
  assert (forall n, 0 <= n -> n / 1000 = n / 100 / 10) as H1000
    by (intros n Hn; rewrite Z.div_div by lia; reflexivity).
  pose proof (Hdm a). pose proof (Hdm b).
  pose proof (Hdm (a / 10)). pose proof (Hdm (b / 10)).
  pose proof (Hdm (a / 100)). pose proof (Hdm (b / 100)).
  rewrite (H1000 a), (H1000 b) in H3 by lia.
  rewrite (H100 a), (H100 b) in * by lia.
  lia.
Qed.

(** X14. Two readings of the clock that are written as the same timestamp are
    the same second of the same day: the format keeps every field. *)
Theorem iso_stamp_keeps_fields (d1 d2 : datetime) :
  iso_stamp d1 = iso_stamp d2 ->
  year d1 = year d2 /\ month d1 = month d2 /\ day d1 = day d2 /\
  hour d1 = hour d2 /\ minute d1 = minute d2 /\ second d1 = second d2.
Proof.
  destruct (datetime_bounds d1) as (Hy1 & Hmo1 & Hd1 & Hh1 & Hmi1 & Hs1).
  destruct (datetime_bounds d2) as (Hy2 & Hmo2 & Hd2 & Hh2 & Hmi2 & Hs2).
  unfold iso_stamp.
  intros Heq.
  assert (zfill4 (year d1) = zfill4 (year d2) /\
          zfill2 (month d1) = zfill2 (month d2) /\
          zfill2 (day d1) = zfill2 (day d2) /\
          zfill2 (hour d1) = zfill2 (hour d2) /\
          zfill2 (minute d1) = zfill2 (minute d2) /\
          zfill2 (second d1) = zfill2 (second d2)) as (Hy & Hmo & Hd & Hh & Hmi & Hs).
  { unfold zfill4, zfill2 in *.
    cbv beta iota delta [String.append] in Heq.
    injection Heq. intros. repeat split; congruence. }
  repeat split;
    [apply zfill4_inj; auto; lia | apply zfill2_inj; auto; lia ..].
Qed.

Lemma iso_stamp_keeps_fields_witness :
  year sample_now = 2015 /\ month sample_now = 3 /\ day sample_now = 7 /\
  hour sample_now = 9 /\ minute sample_now = 5 /\ second sample_now = 2.
Proof.
  exact (iso_stamp_keeps_fields sample_now
           {| year := 2015; month := 3; day := 7; hour := 9; minute := 5;
              second := 2; datetime_range := eq_refl |} eq_refl).
Defined.

(** ** One client for the whole process *)

Lemma own_client_call c (e : Event) :
  match e with
  | ESearch c' _ _ _ _ _ _ | EPatch c' _ _ _ _ _ => c' = c
  | _ => True
  end ->
  negb (uses_other_client c e) = true.
Proof.
  destruct e; try reflexivity; intros ->; cbn; now rewrite String.eqb_refl.
Qed.

Lemma run_own_client w self :
  emits (fun e => negb (uses_other_client (client self) e)) (run w self).
Proof.
  unfold run.
  apply emits_bind; [apply emits_call; now intros r|]. intros engine.
  apply emits_bind; [apply emits_call; now intros r|]. intros metaDb.
  apply emits_bind.
  { unfold query. apply emits_try.
    - apply emits_call. intros r. now apply own_client_call.
    - intros error. eapply emits_weaken; [|apply search_failed_emits].
      now intros []. }
  intros resp. apply emits_bind; [apply unpack_emits|]. intros results.
  apply emits_for_each. intros dataset. unfold process_dataset.
  apply emits_bind.
  { eapply emits_weaken; [|apply scan_emits]. now intros []. }
  intros [file_path scan_result].
  unfold write_back, write_back_failed, log, client_patch_dataset, insertFile.
  apply emits_try.
  - repeat first
      [ apply emits_call; intros r; now apply own_client_call
      | apply emits_bind; [|intros ?] ].
  - intros error. apply emits_call. now intros r.
Qed.

Lemma sched_turn_own_client w self pending q' :
  emits (fun e => negb (uses_other_client (client self) e))
        (sched_turn w self pending q').
Proof.
  unfold sched_turn.
  apply emits_bind; [now apply emits_time_time|]. intros now.
  destruct (now <? ev_time pending).
  - apply emits_bind; [now apply emits_time_sleep|]. intros _. apply emits_ret.
  - apply emits_bind.
    + destruct (ev_action pending). unfold perform, _run.
      apply emits_bind; [apply (run_own_client w (set_sched self q'))|].
      intros _. unfold sched_enter.
      apply emits_bind; [now intros h|]. intros _.
      apply emits_bind; [now apply emits_time_time|]. intros t. apply emits_ret.
    + intros self'.
      apply emits_bind; [now apply emits_time_sleep|]. intros _. apply emits_ret.
Qed.

Lemma sched_run_own_client w fuel :
  forall self h,
    forallb (fun e => negb (uses_other_client (client self) e))
            (snd (sched_run w fuel self h)) = true.
Proof.
  induction fuel as [|fuel IH]; intros self h; [reflexivity|].
  cbn [sched_run].
  destruct (sched self) as [|pending q']; [reflexivity|].
  pose proof (sched_turn_own_client w self pending q' h) as Hturn.
  destruct (sched_turn w self pending q' h) as [[self'|x] e1] eqn:Heq;
    cbn [snd] in *; [|exact Hturn].
  assert (client self' = client self) as Hclient.
  { destruct (sched_turn_returned _ _ _ _ _ _ _ Heq) as [->|[t ->]];
      reflexivity. }
  specialize (IH self' (h ++ e1)). rewrite Hclient in IH.
  destruct (sched_run w fuel self' (h ++ e1)) as [r e2]. cbn [snd] in *.
  now rewrite forallb_app, Hturn, IH.
Qed.

(** X18. Every search and every patch of the process, in the constructor's
    cycle and in all the cycles [start] drives, goes through the one
    client the constructor built from the URL that [getRestUrl]
    answered. *)
Theorem one_client_for_all_calls w dataCatCfg h self evs :
  __init__ w dataCatCfg h = (Ret self, evs) ->
  (exists url,
     In (EGetRestUrl dataCatCfg (Ret url)) evs /\
     In (EClient url (Ret (client self))) evs) /\
  forall fuel,
    calls (uses_other_client (client self))
          (evs ++ snd (start w fuel self (h ++ evs))) = 0%nat.
Proof.
  intros Hinit.
  destruct (Crawler_init_Ret w _ _ _ _ Hinit) as (url & c & Hurl & Hclient).
  rewrite (Crawler_init_eq w _ _ _ _ Hurl Hclient) in Hinit. cbn zeta in Hinit.
  set (self0 := {| _dataCatCfg := dataCatCfg; client := c; sched := [] |}) in *.
  set (h0 := h ++ [EGetRestUrl dataCatCfg (Ret url); EClient url (Ret c)]) in *.
  assert (emits (fun e => negb (uses_other_client c e)) (_run w self0)) as Hrun.
  { unfold _run.
    apply emits_bind; [apply (run_own_client w self0)|].
    intros _. unfold sched_enter.
    apply emits_bind; [now intros h'|]. intros _.
    apply emits_bind; [now apply emits_time_time|]. intros t. apply emits_ret. }
  specialize (Hrun h0).
  destruct (_run w self0 h0) as [r e] eqn:Hcycle. cbn [fst snd] in *.
  injection Hinit as -> <-.
  destruct (_run_returned _ _ _ _ _ Hcycle) as [t ->].
  change (client (set_sched self0 (heappush (sched self0) (rearm t)))) with c.
  split.
  - exists url. split; [now left|right; now left].
  - intros fuel. unfold start.
    pose proof (sched_run_own_client w fuel
                  (set_sched self0 (heappush (sched self0) (rearm t)))
                  (h ++ [EGetRestUrl dataCatCfg (Ret url); EClient url (Ret c)]
                     ++ e)) as Hloop.
    change (client (set_sched self0 (heappush (sched self0) (rearm t))))
      with c in Hloop.
    apply (calls_none _ (fun e => negb (uses_other_client c e))).
    + intros e0 He0. now apply negb_true_iff in He0.
    + rewrite forallb_app. cbn [app forallb]. cbn [app] in Hloop.
      rewrite Hrun, Hloop. reflexivity.
Qed.

Lemma one_client_for_all_calls_witness :
  let w := sample_world search_up [ds_a] patch_up in
  let evs := snd (__init__ w sample_cfg []) in
  let self := set_sched sample_crawler [rearm 0] in
  In (EClient "http://datacat/r" (Ret sample_client)) evs /\
  calls (uses_other_client sample_client)
        (evs ++ snd (start w 5 self ([] ++ evs))) = 0%nat /\
  calls is_phase1_patch (evs ++ snd (start w 5 self ([] ++ evs))) = 3%nat.
Proof.
  intros w evs self.
  assert (__init__ w sample_cfg [] = (Ret self, evs)) as Hinit
    by (vm_compute; reflexivity).
  destruct (one_client_for_all_calls w sample_cfg [] self evs Hinit)
    as [_ Hcalls].
  split; [vm_compute; auto|].
  split; [exact (Hcalls 5%nat)|vm_compute; reflexivity].
Defined.

(** ** What the first patch is about *)

(** X3. The first patch of a dataset goes through the crawler's client to the
    dataset's own path and version, for the watch site; the file whose
    size and checksum it reports is the resource of the first location of
    the dataset at the watch site. *)
Theorem phase1_patch_target w self metaDb dataset h c p body v s r :
  let evs := snd (process_dataset w self metaDb dataset h) in
  In (EPatch c p body v (Some s) r) evs ->
  c = client self /\ p = path dataset /\ v = versionId dataset /\
  s = WATCH_SITE /\
  exists location stat ec stdout,
    find_check_location (locations dataset) = Some location /\
    In (EStat (resource location) (Ret stat)) evs /\
    In (ESubprocess ["cksum"; resource location] (Ret (ec, stdout))) evs.
Proof.
  intros evs Hin. subst evs.
  destruct (process_dataset_In_guarded _ _ _ _ _ _ Hin eq_refl)
    as (file_path & scan_result & e1 & Hscan & Hin' & ->).
  apply guarded_phase1_args in Hin' as (-> & -> & _ & -> & ->).
  apply scan_Ret in Hscan
    as (location & stat & ec & stdout & cksum & tokens & now &
        Hloc & -> & -> & _ & _ & _).
  repeat split. exists location, stat, ec, stdout. cbn [snd].
  split; [exact Hloc|]. split; apply in_app_iff; left; cbn; auto.
Qed.

Lemma phase1_patch_target_witness :
  let w := sample_world search_up [ds_a] patch_up in
  let evs := snd (process_dataset w sample_crawler sample_metaDb ds_a []) in
  find_check_location (locations ds_a) =
    Some {| site := "SLAC"; resource := "/data/a.fits" |} /\
  exists stat, In (EStat "/data/a.fits" (Ret stat)) evs.
Proof.
  intros w evs. subst evs w.
  assert (In (EPatch sample_client "/LSST/a.fits" sample_scan_result 1
                (Some "SLAC") (Ret {| content := "" |}))
             (snd (process_dataset (sample_world search_up [ds_a] patch_up)
                     sample_crawler sample_metaDb ds_a []))) as Hin.
  { vm_compute. do 4 right. left. reflexivity. }
  destruct (phase1_patch_target _ _ _ _ _ _ _ _ _ _ _ Hin)
    as (_ & _ & _ & _ & location & stat & ec & stdout & Hloc & Hstat & _).
  split; [reflexivity|].
  assert (location = {| site := "SLAC"; resource := "/data/a.fits" |}) as ->
    by (vm_compute in Hloc; congruence).
  now exists stat.
Defined.

(** ** The handle of the metadata database *)

Lemma scan_page_own_handle w self metaDb :
  emits (fun e => negb (uses_other_handle metaDb e)) (scan_page w self metaDb).
Proof.
  unfold scan_page.
  apply emits_bind.
  { unfold query. apply emits_try.
    - apply emits_call. now intros r.
    - intros error. eapply emits_weaken; [|apply search_failed_emits].
      now intros []. }
  intros resp. apply emits_bind; [apply unpack_emits|]. intros results.
  apply emits_for_each. intros dataset. unfold process_dataset.
  apply emits_bind.
  { eapply emits_weaken; [|apply scan_emits]. now intros []. }
  intros [file_path scan_result].
  unfold write_back, write_back_failed, log, client_patch_dataset, insertFile.
  apply emits_try.
  - repeat first
      [ apply emits_call; intros r; cbn; now rewrite ?String.eqb_refl
      | apply emits_bind; [|intros ?] ].
  - intros error. apply emits_call. now intros r.
Qed.

(** X13. Every cycle opens the metadata database once, and every insert of
    the cycle goes through the handle that this cycle has opened. *)
Theorem inserts_use_cycle_handle w self h db fp r :
  In (EInsertFile db fp r) (snd (run w self h)) ->
  In (EMetadataFitsDb credFileName (Ret db)) (snd (run w self h)) /\
  calls is_metaDb_open (snd (run w self h)) = 1%nat.
Proof.
  destruct (w_getEngineFromFile w h credFileName) as [engine|x] eqn:Hengine.
  - destruct (w_MetadataFitsDb w
                (h ++ [EGetEngineFromFile credFileName (Ret engine)])
                credFileName) as [metaDb|x] eqn:HmetaDb.
    + rewrite (run_setup_Ret _ _ _ _ _ Hengine HmetaDb). cbn [snd].
      pose proof (scan_page_own_handle w self metaDb
                    (h ++ setup_events engine metaDb)) as Hown.
      pose proof (scan_page_emits w self metaDb
                    (h ++ setup_events engine metaDb)) as Hpage.
      intros Hin. apply in_app_iff in Hin as [Hin|Hin]; [absurd_In Hin|].
      rewrite forallb_forall in Hown. apply Hown in Hin. cbn in Hin.
      apply negb_true_iff, negb_false_iff, String.eqb_eq in Hin.
      assert (db = metaDb) as -> by (destruct db, metaDb; cbn in Hin; congruence).
      split; [apply in_app_iff; left; right; now left|].
      rewrite calls_app.
      rewrite (calls_none is_metaDb_open is_page_event _ ltac:(now intros [])
                 Hpage).
      reflexivity.
    + unfold run, bind, call. rewrite Hengine, HmetaDb. cbn [snd app].
      intros Hin. absurd_In Hin.
  - unfold run, bind, call. rewrite Hengine. cbn [snd].
    intros Hin. absurd_In Hin.
Qed.

Lemma inserts_use_cycle_handle_witness :
  let w := sample_world search_up [ds_a; ds_b] patch_up in
  In (EMetadataFitsDb credFileName (Ret sample_metaDb))
     (snd (run w sample_crawler [])) /\
  calls is_metaDb_open (snd (run w sample_crawler [])) = 1%nat /\
  calls is_insertFile (snd (run w sample_crawler [])) = 2%nat.
Proof.
  intros w. subst w.
  assert (In (EInsertFile sample_metaDb "/data/b.fits" (Ret 7))
             (snd (run (sample_world search_up [ds_a; ds_b] patch_up)
                     sample_crawler []))) as Hin.
  { vm_compute. do 18 right. left. reflexivity. }
  destruct (inserts_use_cycle_handle _ _ _ _ _ _ Hin) as [Hopen Hone].
  split; [exact Hopen|]. split; [exact Hone|vm_compute; reflexivity].
Defined.
